(** * pyTenable: the SecurityCenter alert endpoint ([tenable/sc/alerts.py])

    A shallow embedding of [AlertAPI]: the alert-document builder
    [_alert_creator] and the six endpoint methods [list], [details],
    [create], [update], [delete] and [execute], followed by the properties
    of the alert-document normalization that the specification states.

    Python values are an inductive type, keyword arguments ([**kw]) and
    dictionaries are finite maps with text keys, exceptions are an error
    result, and the calls that leave the module (the analysis query
    constructor and the HTTP session) are recorded in a trace. *)

From Stdlib Require Import ZArith Ascii String.
From stdpp Require Import gmap strings list fin_maps pretty.

Set Warnings "-register-all".
Set Default Proof Using "Type".
Open Scope string_scope.
Open Scope list_scope.

(** ** Python values *)

Inductive value : Type :=
  | VNone
  | VBool (b : bool)
  | VInt (z : Z)
  | VStr (s : string)
  | VTuple (items : list value)
  | VList (items : list value)
  | VDict (d : gmap string value).

(** A keyword-argument bag or a dictionary with text keys. *)
Abbreviation dict := (gmap string value).

(** The classes the module passes to [_check] as the expected type. *)
Inductive pytype : Type := Tstr | Tint | Tbool | Tdict | Ttuple.

(** An instance of [int]: an integer proper or a boolean ([bool] is a
    subclass of [int], and prints as [True]/[False]). *)
Inductive pyint : Type :=
  | IntZ (z : Z)
  | IntBool (b : bool).

(** What an instance of each class carries. *)
Definition carrier (ty : pytype) : Type :=
  match ty with
  | Tstr => string
  | Tint => pyint
  | Tbool => bool
  | Tdict => dict
  | Ttuple => list value
  end.

(** [isinstance(obj, ty)]: the typed content of [obj] when it is an
    instance of [ty], [None] when it is not. *)
Definition instance_of (ty : pytype) (obj : value) : option (carrier ty) :=
  match ty return option (carrier ty) with
  | Tstr => match obj with VStr s => Some s | _ => None end
  | Tint =>
      match obj with
      | VInt z => Some (IntZ z)
      | VBool b => Some (IntBool b)
      | _ => None
      end
  | Tbool => match obj with VBool b => Some b | _ => None end
  | Tdict => match obj with VDict d => Some d | _ => None end
  | Ttuple => match obj with VTuple l => Some l | _ => None end
  end.

(** [obj in choices] for a list of text choices: only a text value can be
    equal to one of them. *)
Definition in_choices (ty : pytype) : carrier ty -> list string -> bool :=
  match ty return carrier ty -> list string -> bool with
  | Tstr => fun s cs => bool_decide (s ∈ cs)
  | _ => fun _ _ => false
  end.

(** ** Exceptions and results *)

Inductive exn : Type :=
  | ValidationError (field : string) (given : value)
      (choices : option (list string))
  | NameError (name : string)
  | IndexError
  | KeyError (key : string)
  | TypeError
  | TransportError (status : Z) (body : string)
  | BuilderError (msg : string).

Inductive result (A : Type) : Type :=
  | Ok (a : A)
  | Raise (e : exn).
Arguments Ok {A} a.
Arguments Raise {A} e.

#[global] Instance result_ret : MRet result := fun A a => Ok a.
#[global] Instance result_bind : MBind result := fun A B f r =>
  match r with
  | Ok a => f a
  | Raise e => Raise e
  end.
#[global] Instance result_fmap : FMap result := fun A B f r =>
  match r with
  | Ok a => Ok (f a)
  | Raise e => Raise e
  end.

Definition is_validation_error (e : exn) : bool :=
  match e with ValidationError _ _ _ => true | _ => false end.

(** ** Built-in operations of the language *)

(** [str(x)] for a boolean and for an instance of [int]. *)
Definition str_bool (b : bool) : string := if b then "True" else "False".

Definition str_int (i : pyint) : string :=
  match i with
  | IntZ z => pretty z
  | IntBool b => str_bool b
  end.

(** [s.lower()] on ASCII text. *)
Definition lower_ascii (c : ascii) : ascii :=
  let n := N_of_ascii c in
  if ((65 <=? n) && (n <=? 90))%N then ascii_of_N (n + 32) else c.

Fixpoint lower (s : string) : string :=
  match s with
  | EmptyString => EmptyString
  | String c s' => String (lower_ascii c) (lower s')
  end.

(** [sep.join(parts)]. *)
Definition join (sep : string) (parts : list string) : string :=
  String.concat sep parts.

(** [d[key]] on a dictionary. *)
Definition getitem (d : dict) (key : string) : result value :=
  match d !! key with
  | Some v => Ok v
  | None => Raise (KeyError key)
  end.

(** [del(d[key])]. *)
Definition delitem (key : string) (d : dict) : result dict :=
  match d !! key with
  | Some _ => Ok (delete key d)
  | None => Raise (KeyError key)
  end.

(** [obj[i]] for a non-negative integer index. *)
Definition subscript (obj : value) (i : nat) : result value :=
  match obj with
  | VTuple l | VList l =>
      match l !! i with
      | Some x => Ok x
      | None => Raise IndexError
      end
  | VStr s =>
      match String.get i s with
      | Some c => Ok (VStr (String c EmptyString))
      | None => Raise IndexError
      end
  | VDict _ => Raise (KeyError (pretty i))
  | _ => Raise TypeError
  end.

(** [obj[key]] for a text key, as applied to a decoded JSON reply. *)
Definition member (obj : value) (key : string) : result value :=
  match obj with
  | VDict d => getitem d key
  | _ => Raise TypeError
  end.

(** [v == s] for a text literal [s]. *)
Definition eq_str (v : value) (s : string) : bool :=
  match v with
  | VStr s' => bool_decide (s' = s)
  | _ => false
  end.

(** ** The field validator *)

(** Modelled from the spec: the Field Validator [_check], which [AlertAPI]
    inherits from its base class [SCEndpoint] (imported from [.base], not
    among the sources). The spec
    gives it as [check(field_name, value, expected_type, choices?) ->
    validated_value], raising on a type mismatch or on a value outside
    [choices], the failure naming the field, the value provided and, for a
    choice-constrained field, the allowed set. *)
Definition _check (name : string) (obj : value) (expected_type : pytype)
    (choices : option (list string)) : result (carrier expected_type) :=
  match instance_of expected_type obj with
  | None => Raise (ValidationError name obj choices)
  | Some x =>
      match choices with
      | Some cs =>
          if in_choices expected_type x cs then Ok x
          else Raise (ValidationError name obj choices)
      | None => Ok x
      end
  end.

(** ** Calls that leave the module *)

Inductive verb : Type := GET | POST | PATCH | DELETE.

(** What the module asks of its collaborators, in the order it asks. *)
Inductive event : Type :=
  | QueryConstructor (filters : list value) (kw : dict)
  | Request (method : verb) (path : string) (params : option dict)
      (json : option dict).

(** A computation that may raise and that extends the trace of calls. *)
Definition M (A : Type) : Type := list event -> result A * list event.

#[global] Instance M_ret : MRet M := fun A a t => (Ok a, t).
#[global] Instance M_bind : MBind M := fun A B f m t =>
  match m t with
  | (Ok a, t') => f a t'
  | (Raise e, t') => (Raise e, t')
  end.

Definition lift {A} (r : result A) : M A := fun t => (r, t).

Definition emit (e : event) : M unit := fun t => (Ok tt, t ++ [e]).

Definition is_request (e : event) : bool :=
  match e with Request _ _ _ _ => true | QueryConstructor _ _ => false end.

(** ** [_alert_creator], block by block

    Each [if] block of the function is a step from the keyword bag to the
    keyword bag; [_alert_creator] runs them in the order of the source. *)

(** [if 'name' in kw: kw['name'] = self._check('name', kw['name'], str)] *)
Definition kw_name (kw : dict) : result dict :=
  match kw !! "name" with
  | Some v =>
      s ← _check "name" v Tstr None;
      Ok (<["name" := VStr s]> kw)
  | None => Ok kw
  end.

(** [if 'description' in kw: ...], as for [name]. *)
Definition kw_description (kw : dict) : result dict :=
  match kw !! "description" with
  | Some v =>
      s ← _check "description" v Tstr None;
      Ok (<["description" := VStr s]> kw)
  | None => Ok kw
  end.

(** The names that are bound where the body of [_alert_creator] runs: its
    parameters and the globals of the module (the two imports and the
    class).  No built-in is called [doc]. *)
Definition alert_creator_scope : list string :=
  ["self"; "filters"; "kw"; "SCEndpoint"; "dict_merge"; "AlertAPI"].

(** Evaluating a name. *)
Definition load_name (scope : list string) (name : string) : result unit :=
  if bool_decide (name ∈ scope) then Ok tt else Raise (NameError name).

(** [if 'query' in kw: doc['query'] = self._check('query', kw['query'], dict)].
    The right-hand side is evaluated first, then the target [doc]; the
    item assignment would leave [kw] as it is. *)
Definition kw_query (kw : dict) : result dict :=
  match kw !! "query" with
  | Some v =>
      _ ← _check "query" v Tdict None;
      _ ← load_name alert_creator_scope "doc";
      Ok kw
  | None => Ok kw
  end.

(** [if 'always_exec_on_trigger' in kw: ...] *)
Definition kw_always_exec_on_trigger (kw : dict) : result dict :=
  match kw !! "always_exec_on_trigger" with
  | Some v =>
      b ← _check "always_exec_on_trigger" v Tbool None;
      let kw := <["executeOnEveryTrigger" := VStr (lower (str_bool b))]> kw in
      delitem "always_exec_on_trigger" kw
  | None => Ok kw
  end.

Definition trigger_operators : list string := [">="; "<="; "="; "!="].

(** [if 'trigger' in kw: ...]: the tuple check, then the three elements
    read by index from [kw['trigger']], each checked as it is read. *)
Definition kw_trigger (kw : dict) : result dict :=
  match kw !! "trigger" with
  | Some v =>
      _ ← _check "trigger" v Ttuple None;
      x0 ← subscript v 0;
      name ← _check "triggerName" x0 Tstr None;
      let kw := <["triggerName" := VStr name]> kw in
      x1 ← subscript v 1;
      op ← _check "triggerOperator" x1 Tstr (Some trigger_operators);
      let kw := <["triggerOperator" := VStr op]> kw in
      x2 ← subscript v 2;
      val ← _check "triggerValue" x2 Tstr None;
      let kw := <["triggerValue" := VStr val]> kw in
      delitem "trigger" kw
  | None => Ok kw
  end.

Definition schedule_types : list string :=
  ["dependent"; "never"; "rollover"; "template"].

(** The condition of the first schedule branch:
    ['schedule_type' in kw and kw['schedule_type'] == 'ical'
     and 'schedule_start' in kw and 'schedule_repeat' in kw]. *)
Definition is_ical_schedule (kw : dict) : bool :=
  match kw !! "schedule_type" with
  | Some st =>
      eq_str st "ical"
      && bool_decide (is_Some (kw !! "schedule_start"))
      && bool_decide (is_Some (kw !! "schedule_repeat"))
  | None => false
  end.

(** The [if ... elif 'schedule_type' in kw: ...] block. *)
Definition kw_schedule (kw : dict) : result dict :=
  if is_ical_schedule kw then
    start_v ← getitem kw "schedule_start";
    start ← _check "schedule_start" start_v Tstr None;
    repeat_v ← getitem kw "schedule_repeat";
    repeat ← _check "schedule_repeat" repeat_v Tstr None;
    let kw :=
      <["schedule" := VDict (<["type" := VStr "ical"]>
                            (<["start" := VStr start]>
                            (<["repeatRule" := VStr repeat]> ∅)))]> kw in
    kw ← delitem "schedule_type" kw;
    kw ← delitem "schedule_start" kw;
    delitem "schedule_repeat" kw
  else
    match kw !! "schedule_type" with
    | Some st =>
        ty ← _check "schedule_type" st Tstr (Some schedule_types);
        let kw := <["schedule" := VDict {["type" := VStr ty]}]> kw in
        delitem "schedule_type" kw
    | None => Ok kw
    end.

(** The blocks between the query construction and the schedule block, in
    source order. *)
Definition kw_before_schedule (kw : dict) : result dict :=
  kw ← kw_name kw;
  kw ← kw_description kw;
  kw ← kw_query kw;
  kw ← kw_always_exec_on_trigger kw;
  kw_trigger kw.

(** All the blocks after the query construction. *)
Definition kw_fields (kw : dict) : result dict :=
  kw ← kw_before_schedule kw;
  kw_schedule kw.

Section Endpoint.

(** The analysis endpoint's query constructor
    ([self._api.analysis._query_constructor], the spec's Filter Query
    Builder): it receives the filter expressions and a copy of the
    keyword bag, and returns the query or raises. *)
Variable _query_constructor : list value -> dict -> result value.

(** The HTTP session followed by the decoding of the reply
    ([self._api.<verb>(path, params=..., json=...).json()]). *)
Variable session :
  verb -> string -> option dict -> option dict -> result value.

Definition call_query_constructor (filters : list value) (kw : dict)
  : M value :=
  _ ← emit (QueryConstructor filters kw);
  lift (_query_constructor filters kw).

Definition api (method : verb) (path : string) (params json : option dict)
  : M value :=
  _ ← emit (Request method path params json);
  lift (session method path params json).

(** [if len(filters) > 0: ...]: default the data type, build the query,
    drop the two keys that only the query constructor reads. *)
Definition kw_filters (filters : list value) (kw : dict) : M dict :=
  match filters with
  | [] => mret kw
  | _ :: _ =>
      let kw :=
        match kw !! "data_type" with
        | None => <["data_type" := VStr "vuln"]> kw
        | Some _ => kw
        end in
      dt ← lift (getitem kw "data_type");
      let kw := <["analysis_type" := dt]> kw in
      q ← call_query_constructor filters kw;
      let kw := <["query" := q]> kw in
      kw ← lift (delitem "analysis_type" kw);
      lift (delitem "data_type" kw)
  end.

Definition _alert_creator (filters : list value) (kw : dict) : M dict :=
  kw ← kw_filters filters kw;
  lift (kw_fields kw).

(** ** The endpoint methods

    [list] and [delete] are [list'] and [delete'] here, the plain names
    being those of the list type and of the removal of a key. *)

(** [params = dict(); if fields: params['fields'] = ','.join([...])] *)
Definition fields_params (fields : option (list value)) : result dict :=
  match fields with
  | Some ((_ :: _) as fs) =>
      names ← mapM (fun f => _check "field" f Tstr None) fs;
      Ok {["fields" := VStr (join "," names)]}
  | _ => Ok ∅
  end.

Definition list' (fields : option (list value)) : M value :=
  params ← lift (fields_params fields);
  reply ← api GET "alert" (Some params) None;
  lift (member reply "response").

Definition details (id : value) (fields : option (list value)) : M value :=
  params ← lift (fields_params fields);
  i ← lift (_check "id" id Tint None);
  reply ← api GET ("alert/" +:+ str_int i) (Some params) None;
  lift (member reply "response").

Definition create (filters : list value) (kw : dict) : M value :=
  payload ← _alert_creator filters kw;
  reply ← api POST "alert" None (Some payload);
  lift (member reply "response").

Definition update (id : value) (filters : list value) (kw : dict)
  : M value :=
  payload ← _alert_creator filters kw;
  i ← lift (_check "id" id Tint None);
  reply ← api PATCH ("alert/" +:+ str_int i) None (Some payload);
  lift (member reply "response").

Definition delete' (id : value) : M value :=
  i ← lift (_check "id" id Tint None);
  reply ← api DELETE ("alert/" +:+ str_int i) None None;
  lift (member reply "response").

Definition execute (id : value) : M value :=
  i ← lift (_check "id" id Tint None);
  reply ← api POST ("alert/" +:+ str_int i +:+ "/execute") None None;
  lift (member reply "response").

End Endpoint.

(** A query constructor and a session to run the endpoint with: the
    constructor wraps the filters it is given, the session answers every
    request with a reply that has a [response] member. *)
Definition sample_query_constructor (filters : list value) (kw : dict)
  : result value :=
  Ok (VDict {["type" := default VNone (kw !! "analysis_type");
              "filters" := VList filters]}).

Definition sample_session (method : verb) (path : string)
    (params json : option dict) : result value :=
  Ok (VDict {["type" := VStr "regular";
              "response" := VList [VDict {["id" := VStr "1"]}]]}).

(** Keyword bags and a filter expression to run the normalizer on. *)
Definition sample_filter : value :=
  VTuple [VStr "severity"; VStr "="; VStr "3,4"].

Definition kw_long_trigger : dict :=
  {["trigger" := VTuple [VStr "sumip"; VStr ">="; VStr "100"; VStr "extra"]]}.

Definition kw_empty_trigger : dict := {["trigger" := VTuple []]}.

Definition kw_int_trigger : dict := {["trigger" := VInt 5]}.

Definition kw_schedule_clash : dict :=
  {["schedule" := VStr "monthly"; "schedule_type" := VStr "never"]}.

Definition kw_bogus_schedule : dict := {["schedule_type" := VStr "bogus"]}.

Definition kw_partial_ical : dict :=
  {["schedule_type" := VStr "ical";
    "schedule_start" := VStr "20240101T000000Z"]}.

Definition kw_full_ical : dict :=
  {["schedule_type" := VStr "ical";
    "schedule_start" := VStr "20240101T000000Z";
    "schedule_repeat" := VStr "FREQ=DAILY"]}.

Definition kw_never : dict := {["schedule_type" := VStr "never"]}.

Definition kw_always_exec : dict :=
  {["name" := VStr "X"; "always_exec_on_trigger" := VBool true]}.

Definition notify_action : value :=
  VList [VDict {["type" := VStr "notification";
                 "users" := VList [VDict {["id" := VInt 1]}]]}].

Definition kw_named : dict := {["name" := VStr "X"]}.

(** ** Vocabulary of the statements *)

Definition name_keys : list string := ["name"].
Definition description_keys : list string := ["description"].
Definition query_keys : list string := ["query"].
Definition always_exec_keys : list string :=
  ["always_exec_on_trigger"; "executeOnEveryTrigger"].
Definition trigger_keys : list string :=
  ["trigger"; "triggerName"; "triggerOperator"; "triggerValue"].
Definition schedule_keys : list string :=
  ["schedule_type"; "schedule_start"; "schedule_repeat"; "schedule"].

(** The data type the query constructor is called with: the one supplied,
    [vuln] otherwise. *)
Definition data_type_of (kw : dict) : value :=
  default (VStr "vuln") (kw !! "data_type").

Definition constructor_kw (kw : dict) : dict :=
  <["analysis_type" := data_type_of kw]>
    (<["data_type" := data_type_of kw]> kw).

Definition with_query (kw : dict) (q : value) : dict :=
  delete "data_type" (delete "analysis_type"
    (<["query" := q]> (constructor_kw kw))).

Definition only_query_calls (t t' : list event) : Prop :=
  ∃ evs, t' = t ++ evs ∧ Forall (fun e => is_request e = false) evs.

Definition filter_keys : list string := ["data_type"; "analysis_type"; "query"].

Definition before_schedule_keys : list string :=
  name_keys ++ description_keys ++ query_keys ++ always_exec_keys
  ++ trigger_keys.

Definition field_keys : list string := before_schedule_keys ++ schedule_keys.

(** What the trigger block adds to the keyword bag. *)
Definition trigger_fields (name op val : string) (kw : dict) : dict :=
  <["triggerValue" := VStr val]>
    (<["triggerOperator" := VStr op]> (<["triggerName" := VStr name]> kw)).

(** The two shapes of the [schedule] sub-document. *)
Definition ical_schedule (start repeat : string) : value :=
  VDict (<["type" := VStr "ical"]>
        (<["start" := VStr start]> (<["repeatRule" := VStr repeat]> ∅))).

Definition plain_schedule (ty : string) : value :=
  VDict {["type" := VStr ty]}.

(** The options [_alert_creator] tests for with [in kw], and the other
    keys it assigns. *)
Definition recognized_options : list string :=
  ["data_type"; "name"; "description"; "query"; "always_exec_on_trigger";
   "trigger"; "schedule_type"; "schedule_start"; "schedule_repeat"].

Definition written_keys : list string :=
  ["analysis_type"; "executeOnEveryTrigger"; "triggerName"; "triggerOperator";
   "triggerValue"; "schedule"].

(** The [params] of a request that projects on [names]. *)
Definition fields_of (names : list string) : dict :=
  {["fields" := VStr (join "," names)]}.

(** ** Vocabulary of the further properties *)

(** The blocks before the trigger block, in source order. *)
Definition kw_before_trigger (kw : dict) : result dict :=
  kw ← kw_name kw;
  kw ← kw_description kw;
  kw ← kw_query kw;
  kw_always_exec_on_trigger kw.

(** The keys of the wire format that [_alert_creator] assigns into the
    keyword bag after the query construction, and the options it deletes
    from the bag. *)
Definition wire_keys : list string :=
  ["executeOnEveryTrigger"; "triggerName"; "triggerOperator"; "triggerValue";
   "schedule"].

Definition deleted_options : list string :=
  ["always_exec_on_trigger"; "trigger"; "schedule_type"; "schedule_start";
   "schedule_repeat"].

(** The options that the blocks after the query construction test for
    with [in kw] at their head. *)
Definition tested_options : list string :=
  ["name"; "description"; "query"; "always_exec_on_trigger"; "trigger";
   "schedule_type"].

(** The field names that [_alert_creator] passes to [_check]. *)
Definition checked_fields : list string :=
  ["name"; "description"; "query"; "always_exec_on_trigger"; "trigger";
   "triggerName"; "triggerOperator"; "triggerValue"; "schedule_start";
   "schedule_repeat"; "schedule_type"].

(** The exceptions that the blocks of [_alert_creator] raise themselves:
    the failure of a check, the unbound [doc], an index past the end of the
    trigger. *)
Definition normalizer_exception (e : exn) : Prop :=
  (∃ field v choices,
     e = ValidationError field v choices ∧ field ∈ checked_fields)
  ∨ e = NameError "doc"
  ∨ e = IndexError.

(** A call of one of the six methods of [AlertAPI]. *)
Inductive call : Type :=
  | CallList (fields : option (list value))
  | CallDetails (id : value) (fields : option (list value))
  | CallCreate (filters : list value) (kw : dict)
  | CallUpdate (id : value) (filters : list value) (kw : dict)
  | CallDelete (id : value)
  | CallExecute (id : value).

Definition run_call
    (qc : list value -> dict -> result value)
    (session : verb -> string -> option dict -> option dict -> result value)
    (c : call) : M value :=
  match c with
  | CallList fields => list' session fields
  | CallDetails id fields => details session id fields
  | CallCreate filters kw => create qc session filters kw
  | CallUpdate id filters kw => update qc session id filters kw
  | CallDelete id => delete' session id
  | CallExecute id => execute session id
  end.

(** The requests among the events of a trace. *)
Definition requests (t : list event) : list event :=
  filter (fun e => is_request e = true) t.

(** A query constructor that rejects its filters, one that returns a list
    instead of a dictionary, and a session that refuses every request. *)
Definition failing_query_constructor (filters : list value) (kw : dict)
  : result value :=
  Raise (BuilderError "unknown filter").

Definition list_query_constructor (filters : list value) (kw : dict)
  : result value :=
  Ok (VList filters).

Definition refusing_session (method : verb) (path : string)
    (params json : option dict) : result value :=
  Raise (TransportError 403 "Forbidden").

(** A session whose replies have no [response] member. *)
Definition bare_session (method : verb) (path : string)
    (params json : option dict) : result value :=
  Ok (VDict {["error_code" := VInt 0]}).

Definition kw_bad_name : dict :=
  {["name" := VInt 7; "description" := VInt 8; "trigger" := VInt 9]}.

Definition kw_text_name : dict :=
  {["name" := VStr "X"; "description" := VStr "about X";
    "data_type" := VStr "lce"]}.

Definition kw_bad_operator : dict :=
  {["trigger" := VTuple [VStr "sumip"; VStr "~"; VInt 100]]}.

Definition kw_never_with_start : dict :=
  {["schedule_type" := VStr "never"; "schedule_start" := VInt 5]}.

(** ** Laws of the two monads *)

Lemma result_bind_ok {A B} (f : A -> result B) (r : result A) (b : B) :
  r ≫= f = Ok b ↔ ∃ a, r = Ok a ∧ f a = Ok b.
Proof.
  destruct r as [a|e]; simpl; split.
  - intros H. by exists a.
  - by intros (a' & [= ->] & H).
  - done.
  - by intros (a' & [=] & _).
Qed.

Lemma result_fmap_ok {A B} (g : A -> B) (r : result A) (b : B) :
  g <$> r = Ok b ↔ ∃ a, r = Ok a ∧ b = g a.
Proof.
  destruct r as [a|e]; simpl; split.
  - intros [= <-]. by exists a.
  - by intros (a' & [= ->] & ->).
  - done.
  - by intros (a' & [=] & _).
Qed.

(** ** The field validator's two outcomes *)

Lemma check_raise name obj ty choices e :
  _check name obj ty choices = Raise e →
  e = ValidationError name obj choices.
Proof.
  unfold _check. intros H. by repeat (case_match; simplify_eq/=).
Qed.

Lemma check_not_instance name obj ty choices :
  instance_of ty obj = None →
  _check name obj ty choices = Raise (ValidationError name obj choices).
Proof. unfold _check. by intros ->. Qed.

(** ** The query block *)

Lemma doc_unbound :
  load_name alert_creator_scope "doc" = Raise (NameError "doc").
Proof. reflexivity. Qed.

Lemma kw_query_absent kw : kw !! "query" = None → kw_query kw = Ok kw.
Proof. unfold kw_query. by intros ->. Qed.

Lemma kw_query_present kw v :
  kw !! "query" = Some v →
  kw_query kw = (_ ← _check "query" v Tdict None; Raise (NameError "doc")).
Proof.
  unfold kw_query. intros ->. rewrite doc_unbound.
  by destruct (_check "query" v Tdict None).
Qed.

(** ** Frame lemmas, block by block *)

Ltac split_keys :=
  repeat match goal with
  | H : ?k ∉ _ :: _ |- _ => apply not_elem_of_cons in H; destruct H
  | H : ?k ∉ _ ++ _ |- _ => apply not_elem_of_app in H; destruct H
  | H : _ ∉ [] |- _ => clear H
  end.

Lemma kw_name_insert k v kw :
  k ∉ name_keys → kw_name (<[k:=v]> kw) = insert k v <$> kw_name kw.
Proof.
  unfold name_keys, kw_name, _check. intros Hk; split_keys.
  rewrite lookup_insert_ne by done.
  destruct (kw !! "name") as [x|]; [|done]. simpl.
  destruct x; simpl; try done. by rewrite insert_insert_ne.
Qed.

Lemma delitem_insert_ne key k v (kw : dict) :
  key ≠ k → delitem key (<[k:=v]> kw) = insert k v <$> delitem key kw.
Proof.
  intros Hne. unfold delitem. rewrite lookup_insert_ne by done.
  destruct (kw !! key); [|done]. simpl. by rewrite delete_insert_ne.
Qed.

Lemma delitem_insert_eq key v (kw : dict) :
  delitem key (<[key:=v]> kw) = Ok (delete key kw).
Proof. unfold delitem. by rewrite lookup_insert_eq, delete_insert_eq. Qed.

Lemma delitem_ok key (kw out : dict) :
  delitem key kw = Ok out → out = delete key kw.
Proof. unfold delitem. destruct (kw !! key); naive_solver. Qed.

Lemma kw_description_insert k v kw :
  k ∉ description_keys →
  kw_description (<[k:=v]> kw) = insert k v <$> kw_description kw.
Proof.
  unfold description_keys, kw_description, _check. intros Hk; split_keys.
  rewrite lookup_insert_ne by done.
  destruct (kw !! "description") as [x|]; [|done]. simpl.
  destruct x; simpl; try done. by rewrite insert_insert_ne.
Qed.

Lemma kw_query_insert k v kw :
  k ∉ query_keys → kw_query (<[k:=v]> kw) = insert k v <$> kw_query kw.
Proof.
  unfold query_keys. intros Hk; split_keys.
  destruct (kw !! "query") as [x|] eqn:Hq.
  - rewrite (kw_query_present kw x), (kw_query_present _ x);
      [|by rewrite lookup_insert_ne|done].
    by destruct (_check "query" x Tdict None).
  - by rewrite !kw_query_absent by by rewrite ?lookup_insert_ne.
Qed.

Lemma kw_always_exec_on_trigger_insert k v kw :
  k ∉ always_exec_keys →
  kw_always_exec_on_trigger (<[k:=v]> kw)
  = insert k v <$> kw_always_exec_on_trigger kw.
Proof.
  unfold always_exec_keys, kw_always_exec_on_trigger, _check.
  intros Hk; split_keys.
  rewrite lookup_insert_ne by done.
  destruct (kw !! "always_exec_on_trigger") as [x|]; [|done]. simpl.
  destruct x; simpl; try done.
  rewrite (insert_insert_ne _ "executeOnEveryTrigger" k) by done.
  by rewrite delitem_insert_ne.
Qed.

Lemma kw_trigger_insert k v kw :
  k ∉ trigger_keys → kw_trigger (<[k:=v]> kw) = insert k v <$> kw_trigger kw.
Proof.
  unfold trigger_keys, kw_trigger. intros Hk; split_keys.
  rewrite lookup_insert_ne by done.
  destruct (kw !! "trigger") as [x|]; [|done].
  destruct (_check "trigger" x Ttuple None); [|done]. simpl.
  destruct (subscript x 0) as [x0|]; [|done]. simpl.
  destruct (_check "triggerName" x0 Tstr None) as [n|]; [|done]. simpl.
  destruct (subscript x 1) as [x1|]; [|done]. simpl.
  destruct (_check "triggerOperator" x1 Tstr _) as [o|]; [|done]. simpl.
  destruct (subscript x 2) as [x2|]; [|done]. simpl.
  destruct (_check "triggerValue" x2 Tstr None) as [c|]; [|done]. simpl.
  rewrite (insert_insert_ne _ "triggerName" k) by done.
  rewrite (insert_insert_ne _ "triggerOperator" k) by done.
  rewrite (insert_insert_ne _ "triggerValue" k) by done.
  by rewrite delitem_insert_ne.
Qed.

Lemma is_ical_schedule_insert k v kw :
  k ∉ schedule_keys → is_ical_schedule (<[k:=v]> kw) = is_ical_schedule kw.
Proof.
  unfold schedule_keys, is_ical_schedule. intros Hk; split_keys.
  by rewrite !lookup_insert_ne by done.
Qed.

Lemma kw_schedule_insert k v kw :
  k ∉ schedule_keys →
  kw_schedule (<[k:=v]> kw) = insert k v <$> kw_schedule kw.
Proof.
  intros Hk. unfold kw_schedule. rewrite is_ical_schedule_insert by done.
  unfold schedule_keys in Hk; split_keys.
  destruct (is_ical_schedule kw).
  - unfold getitem. rewrite !lookup_insert_ne by done.
    destruct (kw !! "schedule_start") as [a|]; [|done]. simpl.
    destruct (_check "schedule_start" a Tstr None) as [a'|]; [|done]. simpl.
    destruct (kw !! "schedule_repeat") as [r|]; [|done]. simpl.
    destruct (_check "schedule_repeat" r Tstr None) as [r'|]; [|done]. simpl.
    rewrite (insert_insert_ne _ "schedule" k) by done.
    rewrite delitem_insert_ne by done.
    destruct (delitem "schedule_type" _) as [k1|]; [|done]. simpl.
    rewrite delitem_insert_ne by done.
    destruct (delitem "schedule_start" _) as [k2|]; [|done]. simpl.
    by rewrite delitem_insert_ne.
  - rewrite lookup_insert_ne by done.
    destruct (kw !! "schedule_type") as [st|]; [|done].
    destruct (_check "schedule_type" st Tstr _) as [s|]; [|done]. simpl.
    rewrite (insert_insert_ne _ "schedule" k) by done.
    by rewrite delitem_insert_ne.
Qed.

Ltac frame_lookup :=
  cbv [mbind result_bind] in *;
  repeat (case_match; simplify_eq/=; try done);
  repeat match goal with
  | H : delitem _ _ = Ok _ |- _ => apply delitem_ok in H; subst
  end;
  rewrite ?lookup_delete_ne by done;
  rewrite ?lookup_insert_ne by done;
  done.

Lemma kw_name_lookup k kw out :
  k ∉ name_keys → kw_name kw = Ok out → out !! k = kw !! k.
Proof.
  unfold name_keys, kw_name. intros Hk H; split_keys. frame_lookup.
Qed.

Lemma kw_description_lookup k kw out :
  k ∉ description_keys → kw_description kw = Ok out → out !! k = kw !! k.
Proof.
  unfold description_keys, kw_description. intros Hk H; split_keys.
  frame_lookup.
Qed.

Lemma kw_query_lookup k kw out :
  kw_query kw = Ok out → out !! k = kw !! k.
Proof.
  destruct (kw !! "query") as [x|] eqn:Hq.
  - rewrite (kw_query_present kw x) by done.
    by destruct (_check "query" x Tdict None).
  - rewrite kw_query_absent by done. by intros [= ->].
Qed.

Lemma kw_always_exec_on_trigger_lookup k kw out :
  k ∉ always_exec_keys →
  kw_always_exec_on_trigger kw = Ok out → out !! k = kw !! k.
Proof.
  unfold always_exec_keys, kw_always_exec_on_trigger. intros Hk H; split_keys.
  frame_lookup.
Qed.

Lemma kw_trigger_lookup k kw out :
  k ∉ trigger_keys → kw_trigger kw = Ok out → out !! k = kw !! k.
Proof.
  unfold trigger_keys, kw_trigger. intros Hk H; split_keys. frame_lookup.
Qed.

Lemma kw_schedule_lookup k kw out :
  k ∉ schedule_keys → kw_schedule kw = Ok out → out !! k = kw !! k.
Proof.
  unfold schedule_keys, kw_schedule. intros Hk H; split_keys. frame_lookup.
Qed.

Ltac solve_key :=
  cbv [name_keys description_keys query_keys always_exec_keys trigger_keys
       schedule_keys filter_keys before_schedule_keys field_keys app] in *;
  split_keys;
  repeat (apply not_elem_of_cons; split; [done|]);
  apply not_elem_of_nil.

Lemma kw_before_schedule_insert k v kw :
  k ∉ before_schedule_keys →
  kw_before_schedule (<[k:=v]> kw) = insert k v <$> kw_before_schedule kw.
Proof.
  intros Hk. unfold kw_before_schedule.
  rewrite kw_name_insert by solve_key.
  destruct (kw_name kw) as [k1|]; [|done]. simpl.
  rewrite kw_description_insert by solve_key.
  destruct (kw_description k1) as [k2|]; [|done]. simpl.
  rewrite kw_query_insert by solve_key.
  destruct (kw_query k2) as [k3|]; [|done]. simpl.
  rewrite kw_always_exec_on_trigger_insert by solve_key.
  destruct (kw_always_exec_on_trigger k3) as [k4|]; [|done]. simpl.
  by rewrite kw_trigger_insert by solve_key.
Qed.

Lemma kw_fields_insert k v kw :
  k ∉ field_keys → kw_fields (<[k:=v]> kw) = insert k v <$> kw_fields kw.
Proof.
  intros Hk. unfold kw_fields.
  rewrite kw_before_schedule_insert by solve_key.
  destruct (kw_before_schedule kw) as [k5|]; [|done]. simpl.
  by rewrite kw_schedule_insert by solve_key.
Qed.

Lemma kw_before_schedule_lookup k kw out :
  k ∉ before_schedule_keys →
  kw_before_schedule kw = Ok out → out !! k = kw !! k.
Proof.
  intros Hk. unfold kw_before_schedule.
  intros (k1 & H1 & (k2 & H2 & (k3 & H3 & (k4 & H4 & H5)%result_bind_ok)
    %result_bind_ok)%result_bind_ok)%result_bind_ok.
  rewrite (kw_trigger_lookup k k4 out) by (done || solve_key).
  rewrite (kw_always_exec_on_trigger_lookup k k3 k4) by (done || solve_key).
  rewrite (kw_query_lookup k k2 k3) by done.
  rewrite (kw_description_lookup k k1 k2) by (done || solve_key).
  by rewrite (kw_name_lookup k kw k1) by (done || solve_key).
Qed.

Lemma kw_fields_lookup k kw out :
  k ∉ field_keys → kw_fields kw = Ok out → out !! k = kw !! k.
Proof.
  intros Hk. unfold kw_fields. intros (k5 & H5 & H6)%result_bind_ok.
  rewrite (kw_schedule_lookup k k5 out) by (done || solve_key).
  by rewrite (kw_before_schedule_lookup k kw k5) by (done || solve_key).
Qed.

(** ** Running the effectful part *)

Lemma kw_filters_nil qc kw t : kw_filters qc [] kw t = (Ok kw, t).
Proof. done. Qed.

Lemma kw_filters_cons qc f fs kw t :
  kw_filters qc (f :: fs) kw t
  = (with_query kw <$> qc (f :: fs) (constructor_kw kw),
     t ++ [QueryConstructor (f :: fs) (constructor_kw kw)]).
Proof.
  unfold kw_filters, call_query_constructor, with_query, constructor_kw,
    data_type_of.
  destruct (kw !! "data_type") as [dt|] eqn:Hdt; simpl.
  - cbv [mbind M_bind lift emit getitem]. rewrite Hdt.
    rewrite (insert_id kw "data_type") by done.
    destruct (qc _ _) as [q|e]; simpl; [|done].
    unfold delitem. simplify_map_eq. done.
  - cbv [mbind M_bind lift emit getitem]. simplify_map_eq.
    destruct (qc _ _) as [q|e]; simpl; [|done].
    unfold delitem. simplify_map_eq. done.
Qed.

Lemma alert_creator_nil qc kw t :
  _alert_creator qc [] kw t = (kw_fields kw, t).
Proof.
  unfold _alert_creator. cbv [mbind M_bind lift]. rewrite kw_filters_nil.
  done.
Qed.

Lemma alert_creator_cons qc f fs kw t :
  _alert_creator qc (f :: fs) kw t
  = (qc (f :: fs) (constructor_kw kw)
       ≫= (fun q => kw_fields (with_query kw q)),
     t ++ [QueryConstructor (f :: fs) (constructor_kw kw)]).
Proof.
  unfold _alert_creator. cbv [mbind M_bind lift]. rewrite kw_filters_cons.
  by destruct (qc _ _).
Qed.

Lemma only_query_calls_refl t : only_query_calls t t.
Proof. exists []. by rewrite app_nil_r. Qed.

Lemma only_query_calls_constructor t filters kw :
  only_query_calls t (t ++ [QueryConstructor filters kw]).
Proof. eexists. split; [done|]. by repeat constructor. Qed.

Lemma with_query_lookup_query kw q : with_query kw q !! "query" = Some q.
Proof. unfold with_query. by simplify_map_eq. Qed.

Lemma with_query_lookup k kw q :
  k ∉ filter_keys → with_query kw q !! k = kw !! k.
Proof.
  unfold filter_keys, with_query, constructor_kw. intros Hk; split_keys.
  by simplify_map_eq.
Qed.

(** A keyword bag that holds a [query] never gets past the query block. *)
Lemma kw_fields_query_raises kw v :
  kw !! "query" = Some v → ∃ e, kw_fields kw = Raise e.
Proof.
  intros Hq. unfold kw_fields, kw_before_schedule.
  destruct (kw_name kw) as [k1|e] eqn:H1; [|by eexists]. simpl.
  destruct (kw_description k1) as [k2|e] eqn:H2; [|by eexists]. simpl.
  assert (k2 !! "query" = Some v) as Hq2.
  { rewrite (kw_description_lookup "query" _ _ ltac:(solve_key) H2).
    by rewrite (kw_name_lookup "query" _ _ ltac:(solve_key) H1). }
  rewrite (kw_query_present k2 v) by done.
  destruct (_check "query" v Tdict None); by eexists.
Qed.

Lemma alert_creator_query_raises qc filters kw t :
  filters ≠ [] ∨ is_Some (kw !! "query") →
  ∃ e t', _alert_creator qc filters kw t = (Raise e, t')
          ∧ only_query_calls t t'.
Proof.
  intros Hq. destruct filters as [|f fs].
  - destruct Hq as [|[v Hv]]; [done|].
    destruct (kw_fields_query_raises kw v Hv) as [e He].
    exists e, t. rewrite alert_creator_nil, He.
    split; [done|apply only_query_calls_refl].
  - rewrite alert_creator_cons.
    destruct (qc _ _) as [q|e]; simpl.
    + destruct (kw_fields_query_raises (with_query kw q) q) as [e He].
      { apply with_query_lookup_query. }
      rewrite He. do 2 eexists. split; [done|].
      apply only_query_calls_constructor.
    + do 2 eexists. split; [done|]. apply only_query_calls_constructor.
Qed.

(** C1: a call whose keyword bag holds a [query] (supplied as a keyword, or
    built from filter expressions) has the query type-checked as a
    dictionary, but the assignment that follows names the unbound [doc]:
    such a call raises and returns no output mapping.  With a dictionary
    as the only keyword the exception is [NameError]. *)
Theorem query_keyword_raises_NameError qc (d : dict) t :
  _alert_creator qc [] {["query" := VDict d]} t = (Raise (NameError "doc"), t)
  ∧ ∀ filters kw,
      filters ≠ [] ∨ is_Some (kw !! "query") →
      ∃ e t', _alert_creator qc filters kw t = (Raise e, t').
Proof.
  split; [by rewrite alert_creator_nil|].
  intros filters kw Hq.
  destruct (alert_creator_query_raises qc filters kw t Hq) as (e & t' & He & _).
  by exists e, t'.
Qed.

(** C6: with at least one filter expression and no [data_type] keyword the
    query constructor is called with [data_type] (and [analysis_type])
    set to [vuln]; whenever filter expressions are supplied the keyword
    bag that leaves the query construction has no [data_type]; and the
    call then raises, so that no output mapping results. *)
Theorem filters_invoke_constructor_then_raise qc f fs kw t :
  (kw !! "data_type" = None →
   ∃ e,
     _alert_creator qc (f :: fs) kw t
     = (Raise e,
        t ++ [QueryConstructor (f :: fs)
                (<["analysis_type" := VStr "vuln"]>
                   (<["data_type" := VStr "vuln"]> kw))]))
  ∧ (∀ kw1 t',
       kw_filters qc (f :: fs) kw t = (Ok kw1, t') →
       kw1 !! "data_type" = None)
  ∧ ∃ e t', _alert_creator qc (f :: fs) kw t = (Raise e, t').
Proof.
  split_and!.
  - intros Hdt. rewrite alert_creator_cons.
    unfold constructor_kw, data_type_of. rewrite Hdt. simpl.
    destruct (qc _ _) as [q|e]; simpl; [|by eexists].
    destruct (kw_fields_query_raises _ q (with_query_lookup_query kw q))
      as [e ->].
    by eexists.
  - intros kw1 t'. rewrite kw_filters_cons.
    destruct (qc _ _) as [q|]; intros ?; simplify_eq/=.
    unfold with_query. apply lookup_delete_eq.
  - destruct (alert_creator_query_raises qc (f :: fs) kw t)
      as (e & t' & He & _); [by left|].
    by exists e, t'.
Qed.

(** ** Options that are absent, options that are consumed *)

Lemma kw_always_exec_on_trigger_absent kw :
  kw !! "always_exec_on_trigger" = None → kw_always_exec_on_trigger kw = Ok kw.
Proof. unfold kw_always_exec_on_trigger. by intros ->. Qed.

Lemma kw_trigger_absent kw : kw !! "trigger" = None → kw_trigger kw = Ok kw.
Proof. unfold kw_trigger. by intros ->. Qed.

Lemma kw_schedule_absent kw :
  kw !! "schedule_type" = None → kw_schedule kw = Ok kw.
Proof. unfold kw_schedule, is_ical_schedule. by intros ->. Qed.

Lemma kw_always_exec_on_trigger_consumed kw out :
  kw_always_exec_on_trigger kw = Ok out →
  out !! "always_exec_on_trigger" = None.
Proof.
  unfold kw_always_exec_on_trigger. intros H.
  cbv [mbind result_bind] in *.
  repeat (case_match; simplify_eq/=; try done).
  apply delitem_ok in H as ->. by rewrite lookup_delete_eq.
Qed.

Lemma kw_trigger_consumed kw out :
  kw_trigger kw = Ok out → out !! "trigger" = None.
Proof.
  unfold kw_trigger. intros H.
  cbv [mbind result_bind] in *.
  repeat (case_match; simplify_eq/=; try done).
  apply delitem_ok in H as ->. by rewrite lookup_delete_eq.
Qed.

Lemma kw_schedule_consumed kw out :
  kw_schedule kw = Ok out → out !! "schedule_type" = None.
Proof.
  unfold kw_schedule. intros H.
  cbv [mbind result_bind] in *.
  repeat (case_match; simplify_eq/=; try done);
  repeat match goal with
  | H : delitem _ _ = Ok _ |- _ => apply delitem_ok in H; subst
  end;
  rewrite ?lookup_delete_ne by done; by rewrite lookup_delete_eq.
Qed.

(** The keys the normalizer consumes are not in what it returns. *)
Lemma kw_fields_consumed kw out :
  kw_fields kw = Ok out →
  out !! "always_exec_on_trigger" = None
  ∧ out !! "trigger" = None
  ∧ out !! "schedule_type" = None.
Proof.
  unfold kw_fields, kw_before_schedule.
  intros (k5 & (k1 & H1 & (k2 & H2 & (k3 & H3 & (k4 & H4 & H5)%result_bind_ok)
    %result_bind_ok)%result_bind_ok)%result_bind_ok & H6)%result_bind_ok.
  split_and!.
  - rewrite (kw_schedule_lookup "always_exec_on_trigger" _ _
      ltac:(solve_key) H6).
    rewrite (kw_trigger_lookup "always_exec_on_trigger" _ _
      ltac:(solve_key) H5).
    by eapply kw_always_exec_on_trigger_consumed.
  - rewrite (kw_schedule_lookup "trigger" _ _ ltac:(solve_key) H6).
    by eapply kw_trigger_consumed.
  - by eapply kw_schedule_consumed.
Qed.

Lemma alert_creator_ok qc filters kw t out t' :
  _alert_creator qc filters kw t = (Ok out, t') →
  filters = [] ∧ kw_fields kw = Ok out ∧ t' = t.
Proof.
  intros H. destruct filters as [|f fs].
  - rewrite alert_creator_nil in H. by simplify_eq.
  - destruct (alert_creator_query_raises qc (f :: fs) kw t) as (e & t'' & He & _);
      [by left|]. congruence.
Qed.

(** The block on a keyword bag to which the option has just been added. *)
Lemma kw_always_exec_on_trigger_run kw b :
  kw !! "always_exec_on_trigger" = None →
  kw_always_exec_on_trigger (<["always_exec_on_trigger" := VBool b]> kw)
  = Ok (<["executeOnEveryTrigger" := VStr (if b then "true" else "false")]> kw).
Proof.
  intros Hno. unfold kw_always_exec_on_trigger.
  rewrite lookup_insert_eq. simpl.
  rewrite delitem_insert_ne by done. rewrite delitem_insert_eq. simpl.
  rewrite delete_id by done. by destruct b.
Qed.

Lemma kw_fields_always_exec_on_trigger kw b :
  kw !! "always_exec_on_trigger" = Some (VBool b) →
  kw_fields kw
  = insert "executeOnEveryTrigger" (VStr (if b then "true" else "false"))
    <$> kw_fields (delete "always_exec_on_trigger" kw).
Proof.
  intros Hb. rewrite <-(insert_delete_id kw _ _ Hb) at 1.
  assert (delete "always_exec_on_trigger" kw !! "always_exec_on_trigger"
          = None) as Hno by apply lookup_delete_eq.
  revert Hno. generalize (delete "always_exec_on_trigger" kw). intros kw0 Hno.
  unfold kw_fields, kw_before_schedule.
  rewrite kw_name_insert by solve_key.
  destruct (kw_name kw0) as [k1|] eqn:H1; [|done]. simpl.
  rewrite kw_description_insert by solve_key.
  destruct (kw_description k1) as [k2|] eqn:H2; [|done]. simpl.
  rewrite kw_query_insert by solve_key.
  destruct (kw_query k2) as [k3|] eqn:H3; [|done]. simpl.
  assert (k3 !! "always_exec_on_trigger" = None) as Hno3.
  { rewrite (kw_query_lookup _ _ _ H3).
    rewrite (kw_description_lookup "always_exec_on_trigger" _ _
      ltac:(solve_key) H2).
    by rewrite (kw_name_lookup "always_exec_on_trigger" _ _
      ltac:(solve_key) H1). }
  rewrite kw_always_exec_on_trigger_run by done.
  rewrite kw_always_exec_on_trigger_absent by done. simpl.
  rewrite kw_trigger_insert by solve_key.
  destruct (kw_trigger k3) as [k5|]; [|done]. simpl.
  by rewrite kw_schedule_insert by solve_key.
Qed.

Lemma kw_fields_always_exec_on_trigger_invalid kw v :
  kw !! "always_exec_on_trigger" = Some v →
  instance_of Tbool v = None →
  ∃ e, kw_fields kw = Raise e.
Proof.
  intros Hv Hty. unfold kw_fields, kw_before_schedule.
  destruct (kw_name kw) as [k1|e] eqn:H1; [|by eexists]. simpl.
  destruct (kw_description k1) as [k2|e] eqn:H2; [|by eexists]. simpl.
  destruct (kw_query k2) as [k3|e] eqn:H3; [|by eexists]. simpl.
  assert (k3 !! "always_exec_on_trigger" = Some v) as Hv3.
  { rewrite (kw_query_lookup _ _ _ H3).
    rewrite (kw_description_lookup "always_exec_on_trigger" _ _
      ltac:(solve_key) H2).
    by rewrite (kw_name_lookup "always_exec_on_trigger" _ _
      ltac:(solve_key) H1). }
  unfold kw_always_exec_on_trigger at 1. rewrite Hv3.
  unfold _check. rewrite Hty. by eexists.
Qed.

(** C5: with [always_exec_on_trigger] present the value is checked as a
    boolean.  For [True] (for [False]) the call is the call without the
    option with [executeOnEveryTrigger = "true"] (["false"]) added, so that
    every output carries that lower-case text and has no
    [always_exec_on_trigger]; for a value that is not a boolean the call
    raises. *)
Theorem always_exec_on_trigger_renamed kw v :
  kw !! "always_exec_on_trigger" = Some v →
  (∀ b, v = VBool b →
     kw_fields kw
     = insert "executeOnEveryTrigger" (VStr (if b then "true" else "false"))
       <$> kw_fields (delete "always_exec_on_trigger" kw)
     ∧ ∀ qc filters t out t',
         _alert_creator qc filters kw t = (Ok out, t') →
         out !! "executeOnEveryTrigger"
         = Some (VStr (if b then "true" else "false"))
         ∧ out !! "always_exec_on_trigger" = None)
  ∧ (instance_of Tbool v = None →
     ∀ qc filters t, ∃ e t', _alert_creator qc filters kw t = (Raise e, t')).
Proof.
  intros Hv. split.
  - intros b ->. pose proof (kw_fields_always_exec_on_trigger kw b Hv) as Heq.
    split; [done|].
    intros qc filters t out t' (-> & Hout & ->)%alert_creator_ok.
    split; [|by apply kw_fields_consumed in Hout as (? & _)].
    rewrite Heq in Hout. apply result_fmap_ok in Hout as (out0 & _ & ->).
    apply lookup_insert_eq.
  - intros Hty qc filters t.
    destruct filters as [|f fs].
    + destruct (kw_fields_always_exec_on_trigger_invalid kw v Hv Hty) as [e He].
      exists e, t. by rewrite alert_creator_nil, He.
    + destruct (alert_creator_query_raises qc (f :: fs) kw t)
        as (e & t' & He & _); [by left|]. by exists e, t'.
Qed.

(** ** The trigger block *)

Lemma kw_trigger_run kw a op c rest :
  kw !! "trigger" = None →
  op ∈ trigger_operators →
  kw_trigger (<["trigger" := VTuple (VStr a :: VStr op :: VStr c :: rest)]> kw)
  = Ok (trigger_fields a op c kw).
Proof.
  intros Hno Hop. unfold kw_trigger, trigger_fields.
  rewrite lookup_insert_eq. simpl.
  unfold _check. simpl. rewrite bool_decide_eq_true_2 by done. simpl.
  rewrite !delitem_insert_ne by done. rewrite delitem_insert_eq. simpl.
  by rewrite delete_id.
Qed.

Lemma before_trigger_lookup k kw k1 k2 k3 k4 :
  k ∉ name_keys ++ description_keys ++ always_exec_keys →
  kw_name kw = Ok k1 → kw_description k1 = Ok k2 → kw_query k2 = Ok k3 →
  kw_always_exec_on_trigger k3 = Ok k4 →
  k4 !! k = kw !! k.
Proof.
  intros Hk H1 H2 H3 H4.
  rewrite (kw_always_exec_on_trigger_lookup k _ _ ltac:(solve_key) H4).
  rewrite (kw_query_lookup _ _ _ H3).
  rewrite (kw_description_lookup k _ _ ltac:(solve_key) H2).
  by rewrite (kw_name_lookup k _ _ ltac:(solve_key) H1).
Qed.

Lemma kw_fields_trigger kw a op c rest :
  kw !! "trigger" = Some (VTuple (VStr a :: VStr op :: VStr c :: rest)) →
  op ∈ trigger_operators →
  kw_fields kw = trigger_fields a op c <$> kw_fields (delete "trigger" kw).
Proof.
  intros Htr Hop. rewrite <-(insert_delete_id kw _ _ Htr) at 1.
  assert (delete "trigger" kw !! "trigger" = None) as Hno
    by apply lookup_delete_eq.
  revert Hno. generalize (delete "trigger" kw). intros kw0 Hno.
  unfold kw_fields, kw_before_schedule.
  rewrite kw_name_insert by solve_key.
  destruct (kw_name kw0) as [k1|] eqn:H1; [|done]. simpl.
  rewrite kw_description_insert by solve_key.
  destruct (kw_description k1) as [k2|] eqn:H2; [|done]. simpl.
  rewrite kw_query_insert by solve_key.
  destruct (kw_query k2) as [k3|] eqn:H3; [|done]. simpl.
  rewrite kw_always_exec_on_trigger_insert by solve_key.
  destruct (kw_always_exec_on_trigger k3) as [k4|] eqn:H4; [|done]. simpl.
  assert (k4 !! "trigger" = None) as Hno4.
  { by rewrite (before_trigger_lookup "trigger" kw0 k1 k2 k3 k4)
      by (done || solve_key). }
  rewrite kw_trigger_run by done.
  rewrite kw_trigger_absent by done. simpl.
  unfold trigger_fields.
  rewrite !kw_schedule_insert by solve_key.
  by destruct (kw_schedule k4).
Qed.

Lemma kw_fields_trigger_operator_invalid kw a op c rest :
  kw !! "trigger" = Some (VTuple (VStr a :: VStr op :: VStr c :: rest)) →
  op ∉ trigger_operators →
  ∃ e, kw_fields kw = Raise e.
Proof.
  intros Htr Hop. unfold kw_fields, kw_before_schedule.
  destruct (kw_name kw) as [k1|e] eqn:H1; [|by eexists]. simpl.
  destruct (kw_description k1) as [k2|e] eqn:H2; [|by eexists]. simpl.
  destruct (kw_query k2) as [k3|e] eqn:H3; [|by eexists]. simpl.
  destruct (kw_always_exec_on_trigger k3) as [k4|e] eqn:H4; [|by eexists].
  simpl.
  assert (k4 !! "trigger" = kw !! "trigger") as Htr4.
  { by rewrite (before_trigger_lookup "trigger" kw k1 k2 k3 k4)
      by (done || solve_key). }
  unfold kw_trigger at 1. rewrite Htr4, Htr. simpl.
  unfold _check. simpl. rewrite bool_decide_eq_false_2 by done. by eexists.
Qed.

(** C10: a trigger tuple whose first three elements are text, whatever
    follows them, is read by its first three elements only.  With the
    operator among [>=], [<=], [=], [!=] the call is the call without the
    option with [triggerName], [triggerOperator] and [triggerValue] added,
    it has the outcome of the call with the 3-tuple of those elements, and
    every output carries the three keys and no [trigger]; with another
    operator the call raises. *)
Theorem trigger_extra_elements_discarded kw a op c rest :
  kw !! "trigger" = Some (VTuple (VStr a :: VStr op :: VStr c :: rest)) →
  (op ∈ trigger_operators →
     kw_fields kw = trigger_fields a op c <$> kw_fields (delete "trigger" kw)
     ∧ (∀ qc t,
          _alert_creator qc [] kw t
          = _alert_creator qc []
              (<["trigger" := VTuple [VStr a; VStr op; VStr c]]> kw) t)
     ∧ (∀ qc filters t out t',
          _alert_creator qc filters kw t = (Ok out, t') →
          out !! "triggerName" = Some (VStr a)
          ∧ out !! "triggerOperator" = Some (VStr op)
          ∧ out !! "triggerValue" = Some (VStr c)
          ∧ out !! "trigger" = None))
  ∧ (op ∉ trigger_operators →
     ∀ qc filters t, ∃ e t', _alert_creator qc filters kw t = (Raise e, t')).
Proof.
  intros Htr. split.
  - intros Hop. pose proof (kw_fields_trigger kw a op c rest Htr Hop) as Heq.
    split_and!; [done|..].
    + intros qc t. rewrite !alert_creator_nil. f_equal. rewrite Heq.
      rewrite (kw_fields_trigger (<["trigger" := _]> kw) a op c [])
        by (done || apply lookup_insert_eq).
      by rewrite delete_insert_eq.
    + intros qc filters t out t' (-> & Hout & ->)%alert_creator_ok.
      split_and!; [..|by apply kw_fields_consumed in Hout as (_ & ? & _)];
        rewrite Heq in Hout; apply result_fmap_ok in Hout as (out0 & _ & ->);
        unfold trigger_fields; by simplify_map_eq.
  - intros Hop qc filters t. destruct filters as [|f fs].
    + destruct (kw_fields_trigger_operator_invalid kw a op c rest Htr Hop)
        as [e He].
      exists e, t. by rewrite alert_creator_nil, He.
    + destruct (alert_creator_query_raises qc (f :: fs) kw t)
        as (e & t' & He & _); [by left|]. by exists e, t'.
Qed.

(** ** The schedule block *)

Lemma schedule_type_not_ical s : s ∈ schedule_types → s ≠ "ical".
Proof.
  unfold schedule_types. intros Hs ->.
  by repeat (apply elem_of_cons in Hs as [?|Hs]; [done|]);
    apply elem_of_nil in Hs.
Qed.

Lemma kw_schedule_run_ical kw a r :
  kw !! "schedule_type" = None →
  kw !! "schedule_start" = None →
  kw !! "schedule_repeat" = None →
  kw_schedule (<["schedule_type" := VStr "ical"]>
              (<["schedule_start" := VStr a]>
              (<["schedule_repeat" := VStr r]> kw)))
  = Ok (<["schedule" := ical_schedule a r]> kw).
Proof.
  intros Hty Hst Hre. unfold kw_schedule, is_ical_schedule, getitem.
  simplify_map_eq. simpl.
  unfold delitem. simplify_map_eq. simpl. f_equal.
  apply map_eq. intros i.
  repeat (rewrite lookup_delete || rewrite lookup_insert);
    repeat case_decide; by simplify_eq.
Qed.

Lemma kw_schedule_run_plain kw s :
  kw !! "schedule_type" = None →
  s ∈ schedule_types →
  kw_schedule (<["schedule_type" := VStr s]> kw)
  = Ok (<["schedule" := plain_schedule s]> kw).
Proof.
  intros Hty Hs. unfold kw_schedule, is_ical_schedule.
  rewrite lookup_insert_eq. simpl.
  rewrite bool_decide_eq_false_2 by by apply schedule_type_not_ical. simpl.
  unfold _check. simpl. rewrite bool_decide_eq_true_2 by done. simpl.
  rewrite delitem_insert_ne by done. rewrite delitem_insert_eq. simpl.
  by rewrite delete_id.
Qed.

Lemma kw_schedule_rejects kw st :
  kw !! "schedule_type" = Some st →
  (st = VStr "ical"
   ∧ (kw !! "schedule_start" = None ∨ kw !! "schedule_repeat" = None))
  ∨ (∀ s, s ∈ "ical" :: schedule_types → st ≠ VStr s) →
  is_ical_schedule kw = false
  ∧ kw_schedule kw
    = Raise (ValidationError "schedule_type" st (Some schedule_types)).
Proof.
  intros Hst Hbad.
  assert (is_ical_schedule kw = false) as Hical.
  { unfold is_ical_schedule. rewrite Hst.
    destruct Hbad as [[-> [Hno|Hno]]|Hbad].
    - rewrite Hno. simpl. done.
    - rewrite Hno. simpl. by rewrite ?andb_false_r.
    - destruct st; try done. simpl.
      rewrite bool_decide_eq_false_2; [done|].
      intros ->. by apply (Hbad "ical"); [left|]. }
  split; [done|]. unfold kw_schedule. rewrite Hical, Hst.
  destruct Hbad as [[-> _]|Hbad]; [done|].
  unfold _check. destruct st; try done. simpl.
  rewrite bool_decide_eq_false_2; [done|].
  intros Hs. by apply (Hbad s); [right|].
Qed.

Lemma kw_fields_schedule_rejected kw st :
  kw !! "schedule_type" = Some st →
  (st = VStr "ical"
   ∧ (kw !! "schedule_start" = None ∨ kw !! "schedule_repeat" = None))
  ∨ (∀ s, s ∈ "ical" :: schedule_types → st ≠ VStr s) →
  kw_fields kw
  = (_ ← kw_before_schedule kw;
     Raise (ValidationError "schedule_type" st (Some schedule_types))).
Proof.
  intros Hst Hbad. unfold kw_fields.
  destruct (kw_before_schedule kw) as [k5|e] eqn:H5; [|done]. simpl.
  apply kw_schedule_rejects.
  - by rewrite (kw_before_schedule_lookup "schedule_type" _ _
      ltac:(solve_key) H5).
  - rewrite (kw_before_schedule_lookup "schedule_start" _ _
      ltac:(solve_key) H5).
    by rewrite (kw_before_schedule_lookup "schedule_repeat" _ _
      ltac:(solve_key) H5).
Qed.

(** C3: when [schedule_type] is ["ical"] and [schedule_start] or
    [schedule_repeat] is absent, or when [schedule_type] is none of
    [dependent], [ical], [never], [rollover], [template], the first
    schedule branch is not taken and the second one rejects the value: once
    the blocks before it have passed, the call raises the
    [ValidationError] of [schedule_type] that names the choices
    [dependent], [never], [rollover], [template]; in every case the call
    raises. *)
Theorem schedule_type_rejected kw st :
  kw !! "schedule_type" = Some st →
  (st = VStr "ical"
   ∧ (kw !! "schedule_start" = None ∨ kw !! "schedule_repeat" = None))
  ∨ (∀ s, s ∈ "ical" :: schedule_types → st ≠ VStr s) →
  is_ical_schedule kw = false
  ∧ kw_fields kw
    = (_ ← kw_before_schedule kw;
       Raise (ValidationError "schedule_type" st (Some schedule_types)))
  ∧ ∀ qc filters t, ∃ e t', _alert_creator qc filters kw t = (Raise e, t').
Proof.
  intros Hst Hbad.
  pose proof (kw_fields_schedule_rejected kw st Hst Hbad) as Heq.
  split_and!; [by apply (kw_schedule_rejects kw st)|done|].
  intros qc filters t. destruct filters as [|f fs].
  - rewrite alert_creator_nil, Heq.
    destruct (kw_before_schedule kw); by do 2 eexists.
  - destruct (alert_creator_query_raises qc (f :: fs) kw t)
      as (e & t' & He & _); [by left|]. by exists e, t'.
Qed.

Lemma kw_fields_schedule_ical kw a r :
  kw !! "schedule_type" = Some (VStr "ical") →
  kw !! "schedule_start" = Some (VStr a) →
  kw !! "schedule_repeat" = Some (VStr r) →
  kw_fields kw
  = insert "schedule" (ical_schedule a r)
    <$> kw_fields (delete "schedule_repeat" (delete "schedule_start"
                    (delete "schedule_type" kw))).
Proof.
  intros Hty Hst Hre.
  set (kw0 := delete "schedule_repeat" (delete "schedule_start"
                (delete "schedule_type" kw))).
  assert (kw = <["schedule_type" := VStr "ical"]>
               (<["schedule_start" := VStr a]>
               (<["schedule_repeat" := VStr r]> kw0))) as Hkw.
  { apply map_eq. intros i. unfold kw0.
    repeat (rewrite lookup_delete || rewrite lookup_insert);
      repeat case_decide; by simplify_eq. }
  assert (kw0 !! "schedule_type" = None ∧ kw0 !! "schedule_start" = None
          ∧ kw0 !! "schedule_repeat" = None) as (Hty0 & Hst0 & Hre0).
  { unfold kw0. by simplify_map_eq. }
  rewrite Hkw at 1. clearbody kw0. clear Hkw.
  unfold kw_fields.
  rewrite !kw_before_schedule_insert by solve_key.
  destruct (kw_before_schedule kw0) as [k5|] eqn:H5; [|done]. simpl.
  pose proof (kw_before_schedule_lookup "schedule_type" _ _
    ltac:(solve_key) H5) as Hty5.
  pose proof (kw_before_schedule_lookup "schedule_start" _ _
    ltac:(solve_key) H5) as Hst5.
  pose proof (kw_before_schedule_lookup "schedule_repeat" _ _
    ltac:(solve_key) H5) as Hre5.
  rewrite kw_schedule_run_ical by congruence.
  by rewrite kw_schedule_absent by congruence.
Qed.

Lemma kw_fields_schedule_plain kw s :
  kw !! "schedule_type" = Some (VStr s) →
  s ∈ schedule_types →
  kw_fields kw
  = insert "schedule" (plain_schedule s)
    <$> kw_fields (delete "schedule_type" kw).
Proof.
  intros Hty Hs. rewrite <-(insert_delete_id kw _ _ Hty) at 1.
  assert (delete "schedule_type" kw !! "schedule_type" = None) as Hno
    by apply lookup_delete_eq.
  revert Hno. generalize (delete "schedule_type" kw). intros kw0 Hno.
  unfold kw_fields.
  rewrite kw_before_schedule_insert by solve_key.
  destruct (kw_before_schedule kw0) as [k5|] eqn:H5; [|done]. simpl.
  pose proof (kw_before_schedule_lookup "schedule_type" _ _
    ltac:(solve_key) H5) as Hty5.
  rewrite kw_schedule_run_plain by (done || congruence).
  by rewrite kw_schedule_absent by congruence.
Qed.

Lemma kw_fields_schedule_ical_not_text kw sv rv :
  kw !! "schedule_type" = Some (VStr "ical") →
  kw !! "schedule_start" = Some sv →
  kw !! "schedule_repeat" = Some rv →
  (instance_of Tstr sv = None →
   kw_fields kw
   = (_ ← kw_before_schedule kw;
      Raise (ValidationError "schedule_start" sv None)))
  ∧ (∀ a, sv = VStr a → instance_of Tstr rv = None →
     kw_fields kw
     = (_ ← kw_before_schedule kw;
        Raise (ValidationError "schedule_repeat" rv None))).
Proof.
  intros Hty Hst Hre.
  assert (∀ k5, kw_before_schedule kw = Ok k5 →
    is_ical_schedule k5 = true
    ∧ k5 !! "schedule_start" = Some sv ∧ k5 !! "schedule_repeat" = Some rv)
    as Hk5.
  { intros k5 H5. unfold is_ical_schedule.
    rewrite (kw_before_schedule_lookup "schedule_type" _ _
      ltac:(solve_key) H5).
    rewrite (kw_before_schedule_lookup "schedule_start" _ _
      ltac:(solve_key) H5).
    rewrite (kw_before_schedule_lookup "schedule_repeat" _ _
      ltac:(solve_key) H5).
    by rewrite Hty, Hst, Hre. }
  split.
  - intros Hsv. unfold kw_fields.
    destruct (kw_before_schedule kw) as [k5|] eqn:H5; [|done]. simpl.
    destruct (Hk5 k5 eq_refl) as (Hical & Hst5 & _).
    unfold kw_schedule, getitem. rewrite Hical, Hst5. simpl.
    by rewrite check_not_instance.
  - intros a -> Hrv. unfold kw_fields.
    destruct (kw_before_schedule kw) as [k5|] eqn:H5; [|done]. simpl.
    destruct (Hk5 k5 eq_refl) as (Hical & Hst5 & Hre5).
    unfold kw_schedule, getitem. rewrite Hical, Hst5, Hre5. simpl.
    by rewrite check_not_instance.
Qed.

(** C4: with [schedule_type="ical"] and both [schedule_start] and
    [schedule_repeat] present, the two are checked as text, and the call
    is the call without the three options with
    [schedule = {type: "ical", start: ..., repeatRule: ...}] added: every
    output has that [schedule] and none of the three keys.  With a
    [schedule_type] among [dependent], [never], [rollover], [template] the
    call is the call without the option with [schedule = {type: ...}]
    added, and the output has no [schedule_type]. *)
Theorem schedule_collapsed kw :
  (∀ a r,
     kw !! "schedule_type" = Some (VStr "ical") →
     kw !! "schedule_start" = Some (VStr a) →
     kw !! "schedule_repeat" = Some (VStr r) →
     kw_fields kw
     = insert "schedule" (ical_schedule a r)
       <$> kw_fields (delete "schedule_repeat" (delete "schedule_start"
                       (delete "schedule_type" kw)))
     ∧ ∀ qc filters t out t',
         _alert_creator qc filters kw t = (Ok out, t') →
         out !! "schedule" = Some (ical_schedule a r)
         ∧ out !! "schedule_type" = None
         ∧ out !! "schedule_start" = None
         ∧ out !! "schedule_repeat" = None)
  ∧ (∀ sv rv,
       kw !! "schedule_type" = Some (VStr "ical") →
       kw !! "schedule_start" = Some sv →
       kw !! "schedule_repeat" = Some rv →
       (instance_of Tstr sv = None →
        kw_fields kw
        = (_ ← kw_before_schedule kw;
           Raise (ValidationError "schedule_start" sv None)))
       ∧ (∀ a, sv = VStr a → instance_of Tstr rv = None →
          kw_fields kw
          = (_ ← kw_before_schedule kw;
             Raise (ValidationError "schedule_repeat" rv None))))
  ∧ (∀ s,
       kw !! "schedule_type" = Some (VStr s) →
       s ∈ schedule_types →
       kw_fields kw
       = insert "schedule" (plain_schedule s)
         <$> kw_fields (delete "schedule_type" kw)
       ∧ ∀ qc filters t out t',
           _alert_creator qc filters kw t = (Ok out, t') →
           out !! "schedule" = Some (plain_schedule s)
           ∧ out !! "schedule_type" = None).
Proof.
  split_and!.
  - intros a r Hty Hst Hre.
    pose proof (kw_fields_schedule_ical kw a r Hty Hst Hre) as Heq.
    split; [done|].
    intros qc filters t out t' (-> & Hout & ->)%alert_creator_ok.
    rewrite Heq in Hout. apply result_fmap_ok in Hout as (out0 & Hout0 & ->).
    apply result_bind_ok in Hout0 as (k5 & H5 & H6).
    rewrite kw_schedule_absent in H6.
    2: { rewrite (kw_before_schedule_lookup "schedule_type" _ _
           ltac:(solve_key) H5). by simplify_map_eq. }
    simplify_eq.
    rewrite lookup_insert_eq, !lookup_insert_ne by done.
    rewrite (kw_before_schedule_lookup "schedule_type" _ _
      ltac:(solve_key) H5).
    rewrite (kw_before_schedule_lookup "schedule_start" _ _
      ltac:(solve_key) H5).
    rewrite (kw_before_schedule_lookup "schedule_repeat" _ _
      ltac:(solve_key) H5).
    by simplify_map_eq.
  - apply kw_fields_schedule_ical_not_text.
  - intros s Hty Hs.
    pose proof (kw_fields_schedule_plain kw s Hty Hs) as Heq.
    split; [done|].
    intros qc filters t out t' (-> & Hout & ->)%alert_creator_ok.
    split; [|by apply kw_fields_consumed in Hout as (_ & _ & ?)].
    rewrite Heq in Hout. apply result_fmap_ok in Hout as (out0 & _ & ->).
    apply lookup_insert_eq.
Qed.

(** ** Keys that are not the normalizer's *)

Lemma kw_filters_lookup qc filters kw t kw1 t' k :
  k ∉ filter_keys →
  kw_filters qc filters kw t = (Ok kw1, t') → kw1 !! k = kw !! k.
Proof.
  intros Hk H. destruct filters as [|f fs].
  - rewrite kw_filters_nil in H. by simplify_eq.
  - rewrite kw_filters_cons in H.
    destruct (qc _ _) as [q|]; simplify_eq/=.
    by apply with_query_lookup.
Qed.

(** C9, in the form the code satisfies: a key that is neither an option
    the normalizer tests for nor a key it assigns ([analysis_type],
    [executeOnEveryTrigger], [triggerName], [triggerOperator],
    [triggerValue], [schedule]) is not validated and reaches the output
    unchanged: the blocks commute with setting the key, and every output,
    as every keyword bag that leaves the query construction, holds for it
    what the call was given. *)
Theorem unrecognized_key_passes_through k :
  k ∉ recognized_options →
  k ∉ written_keys →
  (∀ v kw, kw_fields (<[k:=v]> kw) = insert k v <$> kw_fields kw)
  ∧ (∀ qc v kw t,
       _alert_creator qc [] (<[k:=v]> kw) t
       = (insert k v <$> kw_fields kw, t))
  ∧ (∀ qc filters kw t out t',
       _alert_creator qc filters kw t = (Ok out, t') → out !! k = kw !! k)
  ∧ (∀ qc filters kw t kw1 t',
       kw_filters qc filters kw t = (Ok kw1, t') → kw1 !! k = kw !! k).
Proof.
  unfold recognized_options, written_keys. intros Hr Hw. split_keys.
  assert (k ∉ field_keys) as Hfield by solve_key.
  assert (k ∉ filter_keys) as Hfilter by solve_key.
  split_and!.
  - intros v kw. by apply kw_fields_insert.
  - intros qc v kw t. by rewrite alert_creator_nil, kw_fields_insert.
  - intros qc filters kw t out t' (-> & Hout & ->)%alert_creator_ok.
    by apply kw_fields_lookup.
  - intros qc filters kw t kw1 t'. by apply kw_filters_lookup.
Qed.

(** ** What a block can raise *)

Lemma kw_name_raise kw e :
  kw_name kw = Raise e → is_validation_error e = true.
Proof.
  unfold kw_name, _check. intros H.
  repeat (case_match; simplify_eq/=); done.
Qed.

Lemma kw_description_raise kw e :
  kw_description kw = Raise e → is_validation_error e = true.
Proof.
  unfold kw_description, _check. intros H.
  repeat (case_match; simplify_eq/=); done.
Qed.

Lemma kw_always_exec_on_trigger_raise kw e :
  kw_always_exec_on_trigger kw = Raise e → is_validation_error e = true.
Proof.
  unfold kw_always_exec_on_trigger, _check, delitem. intros H.
  repeat (case_match; simplify_eq/=); try done.
  by simplify_map_eq.
Qed.

(** A trigger that is not a tuple of at least three elements stops the
    trigger block: at the tuple check, at an element check, or at the
    index that is out of range. *)
Lemma kw_trigger_malformed kw v :
  kw !! "trigger" = Some v →
  (∀ a b c rest, v ≠ VTuple (a :: b :: c :: rest)) →
  ∃ e, kw_trigger kw = Raise e
       ∧ (is_validation_error e = true ∨ e = IndexError)
       ∧ (instance_of Ttuple v = None → is_validation_error e = true).
Proof.
  intros Hv Hshort. unfold kw_trigger. rewrite Hv.
  destruct v as [| | | |l| |]; try by (eexists; split_and!; [done|by left|done]).
  destruct l as [|a [|b [|c rest]]]; [..|by destruct (Hshort a b c rest)];
    simpl.
  - eexists; split_and!; [done|by right|done].
  - destruct (_check "triggerName" a Tstr None) as [n|e] eqn:Ha; simpl.
    + eexists; split_and!; [done|by right|done].
    + apply check_raise in Ha as ->.
      eexists; split_and!; [done|by left|done].
  - destruct (_check "triggerName" a Tstr None) as [n|e] eqn:Ha; simpl.
    + destruct (_check "triggerOperator" b Tstr _) as [o|e] eqn:Hb; simpl.
      * eexists; split_and!; [done|by right|done].
      * apply check_raise in Hb as ->.
        eexists; split_and!; [done|by left|done].
    + apply check_raise in Ha as ->.
      eexists; split_and!; [done|by left|done].
Qed.

Lemma kw_fields_trigger_malformed kw v :
  kw !! "trigger" = Some v →
  (∀ a b c rest, v ≠ VTuple (a :: b :: c :: rest)) →
  kw !! "query" = None →
  ∃ e, kw_fields kw = Raise e
       ∧ (is_validation_error e = true ∨ e = IndexError)
       ∧ (instance_of Ttuple v = None → is_validation_error e = true).
Proof.
  intros Hv Hshort Hq. unfold kw_fields, kw_before_schedule.
  destruct (kw_name kw) as [k1|e] eqn:H1; simpl.
  2: { apply kw_name_raise in H1. exists e. by split_and!; [|left|]. }
  destruct (kw_description k1) as [k2|e] eqn:H2; simpl.
  2: { apply kw_description_raise in H2. exists e. by split_and!; [|left|]. }
  rewrite kw_query_absent; simpl.
  2: { rewrite (kw_description_lookup "query" _ _ ltac:(solve_key) H2).
       by rewrite (kw_name_lookup "query" _ _ ltac:(solve_key) H1). }
  destruct (kw_always_exec_on_trigger k2) as [k4|e] eqn:H4; simpl.
  2: { apply kw_always_exec_on_trigger_raise in H4. exists e.
       by split_and!; [|left|]. }
  destruct (kw_trigger_malformed k4 v) as (e & -> & He); [|done|by exists e].
  rewrite (kw_always_exec_on_trigger_lookup "trigger" _ _ ltac:(solve_key) H4).
  rewrite (kw_description_lookup "trigger" _ _ ltac:(solve_key) H2).
  by rewrite (kw_name_lookup "trigger" _ _ ltac:(solve_key) H1).
Qed.

(** ** The endpoint methods *)

Lemma create_raise qc session filters kw t e t' :
  _alert_creator qc filters kw t = (Raise e, t') →
  create qc session filters kw t = (Raise e, t').
Proof. unfold create. cbv [mbind M_bind]. by intros ->. Qed.

Lemma update_raise qc session id filters kw t e t' :
  _alert_creator qc filters kw t = (Raise e, t') →
  update qc session id filters kw t = (Raise e, t').
Proof. unfold update. cbv [mbind M_bind]. by intros ->. Qed.

(** C2, in the form the code satisfies: when [trigger] is not a tuple of
    at least three elements the call raises, and [create] sends no
    request.  Without filter expressions and without a [query] keyword the
    exception is a [ValidationError] or an [IndexError], and a
    [ValidationError] when the value is not a tuple at all.  With filter
    expressions the query constructor has been called by then. *)
Theorem malformed_trigger_fails qc session filters kw v t :
  kw !! "trigger" = Some v →
  (∀ a b c rest, v ≠ VTuple (a :: b :: c :: rest)) →
  (∃ e t', _alert_creator qc filters kw t = (Raise e, t')
           ∧ create qc session filters kw t = (Raise e, t')
           ∧ only_query_calls t t')
  ∧ (filters ≠ [] →
     ∃ r, _alert_creator qc filters kw t
          = (r, t ++ [QueryConstructor filters (constructor_kw kw)]))
  ∧ (filters = [] → kw !! "query" = None →
     ∃ e, _alert_creator qc filters kw t = (Raise e, t)
          ∧ (is_validation_error e = true ∨ e = IndexError)
          ∧ (instance_of Ttuple v = None → is_validation_error e = true)).
Proof.
  intros Hv Hshort.
  assert (filters = [] → kw !! "query" = None →
     ∃ e, _alert_creator qc filters kw t = (Raise e, t)
          ∧ (is_validation_error e = true ∨ e = IndexError)
          ∧ (instance_of Ttuple v = None → is_validation_error e = true))
    as Hplain.
  { intros -> Hq. rewrite alert_creator_nil.
    destruct (kw_fields_trigger_malformed kw v Hv Hshort Hq) as (e & -> & He).
    by exists e. }
  split_and!; [|..|done].
  - assert (filters ≠ [] ∨ is_Some (kw !! "query")
            ∨ (filters = [] ∧ kw !! "query" = None)) as [Hq|[Hq|[Hf Hq]]].
    { destruct filters; [|by left]. destruct (kw !! "query"); eauto. }
    1,2: destruct (alert_creator_query_raises qc filters kw t)
        as (e & t' & He & Ht); [by eauto|];
      exists e, t'; split_and!; [done|by apply create_raise|done].
    destruct (Hplain Hf Hq) as (e & He & _).
    exists e, t. split_and!; [done|by apply create_raise|].
    apply only_query_calls_refl.
  - intros Hf. destruct filters as [|f fs]; [done|].
    rewrite alert_creator_cons. by eexists.
Qed.

Lemma mapM_result_cons {A B} (f : A → result B) x l :
  mapM f (x :: l) = (y ← f x; k ← mapM f l; mret (y :: k)).
Proof. done. Qed.

Lemma mapM_check_str names :
  mapM (B:=string) (fun f => _check "field" f Tstr None) (VStr <$> names) = Ok names.
Proof.
  induction names as [|n names IH]; [done|].
  rewrite fmap_cons, mapM_result_cons, IH. done.
Qed.

Lemma mapM_check_raise fs e :
  mapM (B:=string) (fun f => _check "field" f Tstr None) fs = Raise e →
  ∃ g, g ∈ fs ∧ e = ValidationError "field" g None.
Proof.
  induction fs as [|f fs IH]; [done|]. rewrite mapM_result_cons.
  destruct (_check "field" f Tstr None) as [n|e'] eqn:Hf.
  - destruct (mapM (B:=string) (fun f => _check "field" f Tstr None) fs)
      as [ns|e'] eqn:Hfs; simpl; [done|].
    intros [= ->]. destruct IH as (g & Hg & ->); [done|].
    exists g. split; [by right|done].
  - intros [= ->]. apply check_raise in Hf as ->.
    exists f. split; [by left|done].
Qed.

Lemma mapM_check_not_str fs f :
  f ∈ fs → instance_of Tstr f = None →
  ∃ e, mapM (B:=string) (fun f => _check "field" f Tstr None) fs = Raise e.
Proof.
  intros Hin Hf. induction fs as [|g fs IH]; [by apply elem_of_nil in Hin|].
  rewrite mapM_result_cons.
  apply elem_of_cons in Hin as [->|Hin].
  - rewrite check_not_instance by done. by eexists.
  - destruct IH as [e ->]; [done|].
    destruct (_check "field" g Tstr None); by eexists.
Qed.

Lemma fields_params_raise fields e :
  fields_params fields = Raise e → ∃ g, e = ValidationError "field" g None.
Proof.
  unfold fields_params. destruct fields as [[|f fs]|]; [done| |done].
  destruct (mapM (B:=string) (fun f => _check "field" f Tstr None) (f :: fs))
    as [ns|e'] eqn:Hm; simpl; [done|].
  intros [= ->]. apply mapM_check_raise in Hm as (g & _ & ->). by exists g.
Qed.

(** C8: [list] with a non-empty list of fields checks each field as
    text.  When all are text it sends one GET request to [alert] whose
    [fields] parameter is the names joined by commas, and returns the
    [response] member of the decoded reply; when one is not text it raises
    the [ValidationError] of a field and sends nothing. *)
Theorem list_fields_joined session fs t :
  fs ≠ [] →
  (∀ names, fs = VStr <$> names →
     list' session (Some fs) t
     = (session GET "alert" (Some (fields_of names)) None
          ≫= (fun reply => member reply "response"),
        t ++ [Request GET "alert" (Some (fields_of names)) None])
     ∧ ∀ d r,
         session GET "alert" (Some (fields_of names)) None = Ok (VDict d) →
         d !! "response" = Some r →
         (list' session (Some fs) t).1 = Ok r)
  ∧ (∀ f, f ∈ fs → instance_of Tstr f = None →
     ∃ g, g ∈ fs
          ∧ list' session (Some fs) t
            = (Raise (ValidationError "field" g None), t)).
Proof.
  intros Hne. split.
  - intros names ->.
    assert (list' session (Some (VStr <$> names)) t
     = (session GET "alert" (Some (fields_of names)) None
          ≫= (fun reply => member reply "response"),
        t ++ [Request GET "alert" (Some (fields_of names)) None])) as Heq.
    { unfold list', fields_params, api.
      destruct names as [|n names]; [done|].
      rewrite fmap_cons, <-fmap_cons, mapM_check_str. cbv [mbind M_bind lift emit result_bind].
      simpl. by destruct (session _ _ _ _). }
    split; [done|]. intros d r Hs Hr. rewrite Heq, Hs. simpl.
    unfold getitem. by rewrite Hr.
  - intros f Hin Hf. unfold list', fields_params.
    destruct fs as [|f0 fs]; [done|].
    destruct (mapM_check_not_str _ f Hin Hf) as [e He].
    destruct (mapM_check_raise _ e He) as (g & Hg & ->).
    exists g. split; [done|].
    cbv [mbind M_bind lift]. by rewrite He.
Qed.

(** C7: [details], [update], [delete] and [execute] check the id as an
    integer before they build the path.  With an id that is not an
    integer, [delete], [execute] and [details] raise a [ValidationError]
    and leave the trace as it was, and [update] raises without sending a
    request (the [ValidationError] of the id when the normalizer passes);
    with an integer id each sends its one request, to the path that
    carries the id in decimal. *)
Theorem id_validated_before_request qc session id :
  (instance_of Tint id = None →
     (∀ t, delete' session id t = (Raise (ValidationError "id" id None), t))
     ∧ (∀ t, execute session id t = (Raise (ValidationError "id" id None), t))
     ∧ (∀ fields t, ∃ f g,
          details session id fields t = (Raise (ValidationError f g None), t))
     ∧ (∀ filters kw t, ∃ e t',
          update qc session id filters kw t = (Raise e, t')
          ∧ only_query_calls t t'
          ∧ (∀ out t'', _alert_creator qc filters kw t = (Ok out, t'') →
             e = ValidationError "id" id None)))
  ∧ (∀ i, instance_of Tint id = Some i →
     (∀ t, delete' session id t
           = (session DELETE ("alert/" +:+ str_int i) None None
                ≫= (fun reply => member reply "response"),
              t ++ [Request DELETE ("alert/" +:+ str_int i) None None]))
     ∧ (∀ t, execute session id t
           = (session POST ("alert/" +:+ str_int i +:+ "/execute") None None
                ≫= (fun reply => member reply "response"),
              t ++ [Request POST ("alert/" +:+ str_int i +:+ "/execute")
                      None None]))
     ∧ (∀ fields params t,
          fields_params fields = Ok params →
          details session id fields t
          = (session GET ("alert/" +:+ str_int i) (Some params) None
               ≫= (fun reply => member reply "response"),
             t ++ [Request GET ("alert/" +:+ str_int i) (Some params) None]))
     ∧ (∀ filters kw t payload t',
          _alert_creator qc filters kw t = (Ok payload, t') →
          update qc session id filters kw t
          = (session PATCH ("alert/" +:+ str_int i) None (Some payload)
               ≫= (fun reply => member reply "response"),
             t' ++ [Request PATCH ("alert/" +:+ str_int i) None
                      (Some payload)]))).
Proof.
  split.
  - intros Hid. split_and!.
    + intros t. unfold delete', _check. rewrite Hid. done.
    + intros t. unfold execute, _check. rewrite Hid. done.
    + intros fields t. unfold details.
      destruct (fields_params fields) as [params|e] eqn:Hf.
      * exists "id", id. unfold _check. rewrite Hid. done.
      * apply fields_params_raise in Hf as (g & ->). by exists "field", g.
    + intros filters kw t.
      destruct (_alert_creator qc filters kw t) as [[out|e] t'] eqn:Hac.
      * apply alert_creator_ok in Hac as Hok. destruct Hok as (-> & _ & ->).
        exists (ValidationError "id" id None), t.
        split_and!; [|apply only_query_calls_refl|done].
        unfold update, _check. cbv [mbind M_bind lift]. rewrite Hac, Hid. done.
      * exists e, t'. split_and!; [by apply update_raise| |done].
        destruct filters as [|f fs].
        -- rewrite alert_creator_nil in Hac. simplify_eq.
           apply only_query_calls_refl.
        -- rewrite alert_creator_cons in Hac. simplify_eq.
           apply only_query_calls_constructor.
  - intros i Hid. split_and!.
    + intros t. unfold delete', api, _check. rewrite Hid.
      cbv [mbind M_bind lift emit result_bind]. by destruct (session _ _ _ _).
    + intros t. unfold execute, api, _check. rewrite Hid.
      cbv [mbind M_bind lift emit result_bind]. by destruct (session _ _ _ _).
    + intros fields params t Hf. unfold details, api, _check.
      rewrite Hf, Hid.
      cbv [mbind M_bind lift emit result_bind]. by destruct (session _ _ _ _).
    + intros filters kw t payload t' Hac. unfold update, api, _check.
      cbv [mbind M_bind lift emit result_bind]. rewrite Hac, Hid.
      by destruct (session _ _ _ _).
Qed.

(** ** Concrete runs

    The statements above at the sample inputs, and the runs that separate
    what the code does from nearby statements that it does not satisfy. *)

(** A decidable proposition, settled by evaluation. *)
Ltac by_compute := apply (bool_decide_unpack _); vm_compute; exact I.

Ltac refute_elem H :=
  repeat (apply elem_of_cons in H as [?|H]; [done|]); by apply elem_of_nil in H.

Lemma filters_invoke_constructor_then_raise_witness :
  kw_named !! "data_type" = None
  ∧ ∃ e,
      _alert_creator sample_query_constructor [sample_filter] kw_named []
      = (Raise e,
         [] ++ [QueryConstructor [sample_filter]
                  (<["analysis_type" := VStr "vuln"]>
                     (<["data_type" := VStr "vuln"]> kw_named))]).
Proof.
  split; [reflexivity|].
  apply (filters_invoke_constructor_then_raise sample_query_constructor
    sample_filter [] kw_named []). reflexivity.
Defined.

(** Triggers that are not 3-element tuples: four elements are accepted,
    none raises [IndexError], and with a filter expression the query
    constructor is called although the trigger is an integer. *)
Lemma malformed_trigger_counterexample :
  _alert_creator sample_query_constructor [] kw_long_trigger []
  = (Ok (trigger_fields "sumip" ">=" "100" ∅), [])
  ∧ _alert_creator sample_query_constructor [] kw_empty_trigger []
    = (Raise IndexError, [])
  ∧ (_alert_creator sample_query_constructor [sample_filter] kw_int_trigger []).2
    = [QueryConstructor [sample_filter] (constructor_kw kw_int_trigger)].
Proof. split_and!; vm_compute; reflexivity. Qed.

Lemma malformed_trigger_fails_witness :
  kw_int_trigger !! "trigger" = Some (VInt 5)
  ∧ (∀ a b c rest, VInt 5 ≠ VTuple (a :: b :: c :: rest))
  ∧ _alert_creator sample_query_constructor [] kw_int_trigger []
    = (Raise (ValidationError "trigger" (VInt 5) None), []).
Proof.
  assert (kw_int_trigger !! "trigger" = Some (VInt 5)) as Hv by reflexivity.
  assert (∀ a b c rest, VInt 5 ≠ VTuple (a :: b :: c :: rest)) as Hshort
    by discriminate.
  split_and!; [done..|].
  destruct (malformed_trigger_fails sample_query_constructor sample_session
    [] kw_int_trigger (VInt 5) [] Hv Hshort) as (_ & _ & H).
  destruct (H eq_refl ltac:(reflexivity)) as (e & He & _).
  rewrite He. vm_compute in He. by simplify_eq.
Defined.

Lemma schedule_type_rejected_witness :
  kw_partial_ical !! "schedule_type" = Some (VStr "ical")
  ∧ kw_partial_ical !! "schedule_repeat" = None
  ∧ kw_fields kw_partial_ical
    = Raise (ValidationError "schedule_type" (VStr "ical")
               (Some schedule_types))
  ∧ kw_bogus_schedule !! "schedule_type" = Some (VStr "bogus")
  ∧ kw_fields kw_bogus_schedule
    = Raise (ValidationError "schedule_type" (VStr "bogus")
               (Some schedule_types)).
Proof.
  assert (kw_partial_ical !! "schedule_type" = Some (VStr "ical")) as H1
    by reflexivity.
  assert (kw_partial_ical !! "schedule_repeat" = None) as H2 by reflexivity.
  assert (kw_bogus_schedule !! "schedule_type" = Some (VStr "bogus")) as H3
    by reflexivity.
  split_and!; [done..| |done|].
  - destruct (schedule_type_rejected kw_partial_ical (VStr "ical") H1)
      as (_ & -> & _); [left; by split; [|right]|].
    reflexivity.
  - destruct (schedule_type_rejected kw_bogus_schedule (VStr "bogus") H3)
      as (_ & -> & _); [|reflexivity].
    right. intros s Hs [= <-]. refute_elem Hs.
Defined.

Lemma schedule_collapsed_witness :
  kw_fields kw_full_ical
  = Ok {["schedule" := ical_schedule "20240101T000000Z" "FREQ=DAILY"]}
  ∧ kw_fields kw_never = Ok {["schedule" := plain_schedule "never"]}.
Proof.
  split.
  - destruct (schedule_collapsed kw_full_ical) as [H _].
    destruct (H "20240101T000000Z" "FREQ=DAILY") as [-> _];
      reflexivity.
  - destruct (schedule_collapsed kw_never) as (_ & _ & H).
    destruct (H "never") as [-> _]; [reflexivity|by_compute|reflexivity].
Defined.

Lemma always_exec_on_trigger_renamed_witness :
  kw_always_exec !! "always_exec_on_trigger" = Some (VBool true)
  ∧ kw_fields kw_always_exec
    = Ok {["name" := VStr "X"; "executeOnEveryTrigger" := VStr "true"]}.
Proof.
  assert (kw_always_exec !! "always_exec_on_trigger" = Some (VBool true))
    as Hv by reflexivity.
  split; [done|].
  destruct (always_exec_on_trigger_renamed kw_always_exec (VBool true) Hv)
    as [H _].
  destruct (H true eq_refl) as [-> _]. reflexivity.
Defined.

Lemma trigger_extra_elements_discarded_witness :
  kw_long_trigger !! "trigger"
  = Some (VTuple (VStr "sumip" :: VStr ">=" :: VStr "100" :: [VStr "extra"]))
  ∧ ">=" ∈ trigger_operators
  ∧ kw_fields kw_long_trigger = Ok (trigger_fields "sumip" ">=" "100" ∅).
Proof.
  assert (kw_long_trigger !! "trigger"
    = Some (VTuple (VStr "sumip" :: VStr ">=" :: VStr "100" :: [VStr "extra"])))
    as Htr by reflexivity.
  assert (">=" ∈ trigger_operators) as Hop by by_compute.
  split_and!; [done..|].
  destruct (trigger_extra_elements_discarded kw_long_trigger
    "sumip" ">=" "100" [VStr "extra"] Htr) as [H _].
  destruct (H Hop) as (-> & _). reflexivity.
Defined.

Lemma list_fields_joined_witness :
  [VStr "id"; VStr "name"] ≠ []
  ∧ list' sample_session (Some [VStr "id"; VStr "name"]) []
    = (Ok (VList [VDict {["id" := VStr "1"]}]),
       [Request GET "alert" (Some {["fields" := VStr "id,name"]}) None]).
Proof.
  assert ([VStr "id"; VStr "name"] ≠ []) as Hne by discriminate.
  split; [done|].
  destruct (list_fields_joined sample_session [VStr "id"; VStr "name"] [] Hne)
    as [H _].
  destruct (H ["id"; "name"] eq_refl) as [-> _]. reflexivity.
Defined.

Lemma id_validated_before_request_witness :
  instance_of Tint (VStr "5") = None
  ∧ delete' sample_session (VStr "5") []
    = (Raise (ValidationError "id" (VStr "5") None), [])
  ∧ instance_of Tint (VInt 5) = Some (IntZ 5)
  ∧ (delete' sample_session (VInt 5) []).2
    = [Request DELETE "alert/5" None None].
Proof.
  split_and!; [reflexivity| |reflexivity|].
  - destruct (id_validated_before_request sample_query_constructor
      sample_session (VStr "5")) as [H _].
    destruct (H eq_refl) as (-> & _). reflexivity.
  - destruct (id_validated_before_request sample_query_constructor
      sample_session (VInt 5)) as [_ H].
    destruct (H (IntZ 5) eq_refl) as (-> & _). reflexivity.
Defined.

Lemma unrecognized_key_passes_through_witness :
  ("action" ∉ recognized_options)
  ∧ ("action" ∉ written_keys)
  ∧ _alert_creator sample_query_constructor []
      (<["action" := notify_action]> kw_named) []
    = (Ok (<["action" := notify_action]> kw_named), []).
Proof.
  assert ("action" ∉ recognized_options) as Hr by by_compute.
  assert ("action" ∉ written_keys) as Hw by by_compute.
  split_and!; [done..|].
  destruct (unrecognized_key_passes_through "action" Hr Hw) as (_ & H & _).
  rewrite H. reflexivity.
Defined.

(** A key outside the options that the normalizer assigns: the [schedule]
    the call was given is replaced. *)
Lemma written_key_overwritten :
  ("schedule" ∉ recognized_options)
  ∧ kw_schedule_clash !! "schedule" = Some (VStr "monthly")
  ∧ _alert_creator sample_query_constructor [] kw_schedule_clash []
    = (Ok {["schedule" := plain_schedule "never"]}, []).
Proof. split_and!; [by_compute|reflexivity|vm_compute; reflexivity]. Qed.

(** The call of the docstring of [create], a filter expression and a name:
    the query is built and type-checked, then the query block raises. *)
Example create_with_filter_run :
  create sample_query_constructor sample_session [sample_filter] kw_named []
  = (Raise (NameError "doc"),
     [QueryConstructor [sample_filter]
        (<["analysis_type" := VStr "vuln"]>
           (<["data_type" := VStr "vuln"]> kw_named))]).
Proof. vm_compute. reflexivity. Qed.

(** * Further properties of the normalizer *)

(** ** The query construction *)

Lemma constructor_kw_lookup kw k :
  constructor_kw kw !! k
  = if decide (k = "analysis_type" ∨ k = "data_type")
    then Some (data_type_of kw) else kw !! k.
Proof.
  unfold constructor_kw. case_decide as Hk.
  - destruct Hk as [->| ->]; by simplify_map_eq.
  - rewrite !lookup_insert_ne; [done|intros <-; apply Hk; eauto..].
Qed.

(** X1: the normalizer sends no request.  Without filter expressions it
    leaves the trace as it was; with filter expressions it calls the query
    constructor once, with the filters and with the caller's options, among
    which [data_type] and [analysis_type] are both set to the supplied
    [data_type], or to [vuln] when none was supplied. *)
Theorem alert_creator_trace qc filters kw t :
  (filters = [] → (_alert_creator qc filters kw t).2 = t)
  ∧ (filters ≠ [] →
     ∃ ckw,
       (_alert_creator qc filters kw t).2 = t ++ [QueryConstructor filters ckw]
       ∧ ckw !! "data_type" = Some (default (VStr "vuln") (kw !! "data_type"))
       ∧ ckw !! "analysis_type"
         = Some (default (VStr "vuln") (kw !! "data_type"))
       ∧ ∀ k, k ≠ "data_type" → k ≠ "analysis_type" → ckw !! k = kw !! k).
Proof.
  split.
  - intros ->. by rewrite alert_creator_nil.
  - intros Hne. destruct filters as [|f fs]; [done|].
    exists (constructor_kw kw). rewrite alert_creator_cons. simpl.
    split_and!; [done|..].
    + rewrite constructor_kw_lookup. by rewrite decide_True by by right.
    + rewrite constructor_kw_lookup. by rewrite decide_True by by left.
    + intros k H1 H2. rewrite constructor_kw_lookup.
      rewrite decide_False; [done|by intros [?|?]].
Qed.

(** X2: an exception of the query constructor is the exception of the
    call, whatever the other options are; a query that is not a dictionary
    is rejected by a [ValidationError], that of [query] when no [name] and
    no [description] are supplied. *)
Theorem query_constructor_outcome qc f fs kw t :
  (∀ e, qc (f :: fs) (constructor_kw kw) = Raise e →
     _alert_creator qc (f :: fs) kw t
     = (Raise e, t ++ [QueryConstructor (f :: fs) (constructor_kw kw)]))
  ∧ (∀ q, qc (f :: fs) (constructor_kw kw) = Ok q →
     instance_of Tdict q = None →
     ∃ e,
       _alert_creator qc (f :: fs) kw t
       = (Raise e, t ++ [QueryConstructor (f :: fs) (constructor_kw kw)])
       ∧ is_validation_error e = true
       ∧ (kw !! "name" = None → kw !! "description" = None →
          e = ValidationError "query" q None)).
Proof.
  split.
  - intros e He. by rewrite alert_creator_cons, He.
  - intros q Hq Hty. rewrite alert_creator_cons, Hq. simpl.
    unfold kw_fields, kw_before_schedule.
    destruct (kw_name (with_query kw q)) as [k1|e] eqn:H1; simpl.
    2: { exists e. split_and!; [done|by eapply kw_name_raise|].
         intros Hn _. unfold kw_name in H1.
         rewrite with_query_lookup, Hn in H1 by solve_key. done. }
    destruct (kw_description k1) as [k2|e] eqn:H2; simpl.
    2: { exists e. split_and!; [done|by eapply kw_description_raise|].
         intros _ Hd. unfold kw_description in H2.
         rewrite (kw_name_lookup "description" _ _ ltac:(solve_key) H1) in H2.
         rewrite with_query_lookup, Hd in H2 by solve_key. done. }
    rewrite (kw_query_present k2 q).
    2: { rewrite (kw_description_lookup "query" _ _ ltac:(solve_key) H2).
         rewrite (kw_name_lookup "query" _ _ ltac:(solve_key) H1).
         apply with_query_lookup_query. }
    rewrite check_not_instance by done. simpl. by eexists.
Qed.

(** ** The order of the checks *)

(** X3: without filter expressions, [name] is checked first and
    [description] second: a [name] that is not text raises its
    [ValidationError] whatever else the call carries, and so does a
    [description] that is not text once [name] is absent or text. *)
Theorem name_checked_first qc kw t :
  (∀ v, kw !! "name" = Some v → instance_of Tstr v = None →
     _alert_creator qc [] kw t = (Raise (ValidationError "name" v None), t))
  ∧ (∀ v, kw !! "description" = Some v → instance_of Tstr v = None →
     (kw !! "name" = None ∨ ∃ s, kw !! "name" = Some (VStr s)) →
     _alert_creator qc [] kw t
     = (Raise (ValidationError "description" v None), t)).
Proof.
  split.
  - intros v Hv Hty. rewrite alert_creator_nil.
    unfold kw_fields, kw_before_schedule, kw_name. rewrite Hv.
    by rewrite check_not_instance.
  - intros v Hv Hty Hname. rewrite alert_creator_nil.
    unfold kw_fields, kw_before_schedule.
    assert (∃ k1, kw_name kw = Ok k1 ∧ k1 !! "description" = Some v)
      as (k1 & -> & Hv1).
    { unfold kw_name. destruct Hname as [->|[s ->]]; simpl.
      - by exists kw.
      - eexists. split; [done|]. by rewrite lookup_insert_ne. }
    simpl. unfold kw_description. rewrite Hv1.
    by rewrite check_not_instance.
Qed.

(** ** What an output looks like *)

Lemma check_str_ok name obj choices s :
  _check name obj Tstr choices = Ok s → obj = VStr s.
Proof.
  unfold _check. destruct obj; simpl; try done.
  destruct choices; [case_match|]; by intros [= ->].
Qed.

Lemma kw_name_ok kw out :
  kw_name kw = Ok out →
  out = kw ∧ (kw !! "name" = None ∨ ∃ s, kw !! "name" = Some (VStr s)).
Proof.
  unfold kw_name. destruct (kw !! "name") as [v|] eqn:Hv.
  - destruct (_check "name" v Tstr None) as [s|] eqn:Hs; simpl; [|done].
    apply check_str_ok in Hs as ->. intros [= <-].
    split; [by rewrite insert_id|eauto].
  - intros [= <-]. eauto.
Qed.

Lemma kw_description_ok kw out :
  kw_description kw = Ok out →
  out = kw
  ∧ (kw !! "description" = None ∨ ∃ s, kw !! "description" = Some (VStr s)).
Proof.
  unfold kw_description. destruct (kw !! "description") as [v|] eqn:Hv.
  - destruct (_check "description" v Tstr None) as [s|] eqn:Hs; simpl; [|done].
    apply check_str_ok in Hs as ->. intros [= <-].
    split; [by rewrite insert_id|eauto].
  - intros [= <-]. eauto.
Qed.

Lemma kw_query_ok kw out :
  kw_query kw = Ok out → out = kw ∧ kw !! "query" = None.
Proof.
  destruct (kw !! "query") as [x|] eqn:Hq.
  - rewrite (kw_query_present kw x) by done.
    by destruct (_check "query" x Tdict None).
  - rewrite kw_query_absent by done. by intros [= ->].
Qed.

(** The blocks of [kw_fields], one result after the other. *)
Lemma kw_fields_ok kw out :
  kw_fields kw = Ok out ↔
  ∃ k4 k5,
    kw_name kw = Ok kw ∧ kw_description kw = Ok kw ∧ kw_query kw = Ok kw
    ∧ kw_always_exec_on_trigger kw = Ok k4
    ∧ kw_trigger k4 = Ok k5
    ∧ kw_schedule k5 = Ok out.
Proof.
  unfold kw_fields, kw_before_schedule. split.
  - intros (k5 & (k1 & H1 & (k2 & H2 & (k3 & H3 & (k4 & H4 & H5)
      %result_bind_ok)%result_bind_ok)%result_bind_ok)%result_bind_ok & H6)
      %result_bind_ok.
    pose proof (kw_name_ok _ _ H1) as [-> _].
    pose proof (kw_description_ok _ _ H2) as [-> _].
    pose proof (kw_query_ok _ _ H3) as [-> _].
    by exists k4, k5.
  - intros (k4 & k5 & Hn & Hd & Hq & H4 & H5 & H6).
    rewrite Hn. simpl. rewrite Hd. simpl. rewrite Hq. simpl.
    rewrite H4. simpl. by rewrite H5.
Qed.

(** The shape of what the blocks return. *)
Lemma kw_fields_output kw out :
  kw_fields kw = Ok out →
  out !! "query" = None
  ∧ out !! "always_exec_on_trigger" = None
  ∧ out !! "trigger" = None
  ∧ out !! "schedule_type" = None
  ∧ (∀ v, out !! "name" = Some v → ∃ s, v = VStr s)
  ∧ (∀ v, out !! "description" = Some v → ∃ s, v = VStr s).
Proof.
  intros Hout.
  pose proof (kw_fields_consumed _ _ Hout) as (Ha & Htr & Hsc).
  split_and!; try done.
  - apply kw_fields_ok in Hout as (k4 & k5 & _ & _ & Hq & H4 & H5 & H6).
    rewrite (kw_schedule_lookup "query" _ _ ltac:(solve_key) H6).
    rewrite (kw_trigger_lookup "query" _ _ ltac:(solve_key) H5).
    rewrite (kw_always_exec_on_trigger_lookup "query" _ _
      ltac:(solve_key) H4).
    by apply kw_query_ok in Hq as [_ ?].
  - intros v Hv.
    apply kw_fields_ok in Hout as (k4 & k5 & Hn & _ & _ & H4 & H5 & H6).
    rewrite (kw_schedule_lookup "name" _ _ ltac:(solve_key) H6) in Hv.
    rewrite (kw_trigger_lookup "name" _ _ ltac:(solve_key) H5) in Hv.
    rewrite (kw_always_exec_on_trigger_lookup "name" _ _
      ltac:(solve_key) H4) in Hv.
    apply kw_name_ok in Hn as [_ [Hn|[s Hn]]]; [congruence|].
    exists s. congruence.
  - intros v Hv.
    apply kw_fields_ok in Hout as (k4 & k5 & _ & Hd & _ & H4 & H5 & H6).
    rewrite (kw_schedule_lookup "description" _ _ ltac:(solve_key) H6) in Hv.
    rewrite (kw_trigger_lookup "description" _ _ ltac:(solve_key) H5) in Hv.
    rewrite (kw_always_exec_on_trigger_lookup "description" _ _
      ltac:(solve_key) H4) in Hv.
    apply kw_description_ok in Hd as [_ [Hd|[s Hd]]]; [congruence|].
    exists s. congruence.
Qed.

(** X4: an output has none of the keys [query],
    [always_exec_on_trigger], [trigger] and [schedule_type], and its
    [name] and [description], when present, are text. *)
Theorem output_shape qc filters kw t out t' :
  _alert_creator qc filters kw t = (Ok out, t') →
  out !! "query" = None
  ∧ out !! "always_exec_on_trigger" = None
  ∧ out !! "trigger" = None
  ∧ out !! "schedule_type" = None
  ∧ (∀ v, out !! "name" = Some v → ∃ s, v = VStr s)
  ∧ (∀ v, out !! "description" = Some v → ∃ s, v = VStr s).
Proof.
  intros Hrun. destruct filters as [|f fs].
  - rewrite alert_creator_nil in Hrun. injection Hrun as Hout _.
    by apply (kw_fields_output kw).
  - destruct (alert_creator_query_raises qc (f :: fs) kw t)
      as (e & t'' & He & _); [by left|].
    congruence.
Qed.

Lemma kw_name_text kw :
  (∀ v, kw !! "name" = Some v → ∃ s, v = VStr s) → kw_name kw = Ok kw.
Proof.
  intros H. unfold kw_name. destruct (kw !! "name") as [v|] eqn:Hv; [|done].
  destruct (H v eq_refl) as [s ->]. simpl. by rewrite insert_id.
Qed.

Lemma kw_description_text kw :
  (∀ v, kw !! "description" = Some v → ∃ s, v = VStr s) →
  kw_description kw = Ok kw.
Proof.
  intros H. unfold kw_description.
  destruct (kw !! "description") as [v|] eqn:Hv; [|done].
  destruct (H v eq_refl) as [s ->]. simpl. by rewrite insert_id.
Qed.

(** X5: the normalizer is idempotent: an output is accepted again and
    comes back unchanged. *)
Theorem normalizer_idempotent qc kw t out t' :
  _alert_creator qc [] kw t = (Ok out, t') →
  _alert_creator qc [] out t' = (Ok out, t').
Proof.
  rewrite !alert_creator_nil. intros [= Hout <-].
  destruct (kw_fields_output kw out Hout)
    as (Hq & Ha & Htr & Hsc & Hn & Hd).
  f_equal.
  apply kw_fields_ok. exists out, out.
  split_and!.
  - by apply kw_name_text.
  - by apply kw_description_text.
  - by apply kw_query_absent.
  - by apply kw_always_exec_on_trigger_absent.
  - by apply kw_trigger_absent.
  - by apply kw_schedule_absent.
Qed.

(** ** Where the values of an output come from *)

(** Membership in a list of keys, and its refutation. *)
Ltac elem_solve :=
  repeat first [apply list_elem_of_here | apply list_elem_of_further].

Ltac elem_cases H :=
  repeat (apply elem_of_cons in H as [->|H]); [..|by apply elem_of_nil in H].

Ltac elem_refute H :=
  repeat (apply elem_of_cons in H as [?|H]; [done|]); by apply elem_of_nil in H.

Ltac block_source :=
  cbv [mbind result_bind] in *;
  repeat (case_match; simplify_eq/=; try done);
  repeat match goal with
  | H : delitem _ _ = Ok _ |- _ => apply delitem_ok in H; subst
  end;
  repeat match goal with
  | H : context [delete _ _ !! _] |- _ =>
      rewrite lookup_delete in H; case_decide; simplify_eq
  | H : context [<[_:=_]> _ !! _] |- _ =>
      rewrite lookup_insert in H; case_decide; simplify_eq
  end;
  eauto.

Lemma kw_always_exec_on_trigger_source kw out k v :
  kw_always_exec_on_trigger kw = Ok out → out !! k = Some v →
  k = "executeOnEveryTrigger" ∨ kw !! k = Some v.
Proof. unfold kw_always_exec_on_trigger. intros H Hv. block_source. Qed.

Lemma kw_trigger_source kw out k v :
  kw_trigger kw = Ok out → out !! k = Some v →
  k ∈ ["triggerName"; "triggerOperator"; "triggerValue"] ∨ kw !! k = Some v.
Proof.
  unfold kw_trigger. intros H Hv. block_source; left; elem_solve.
Qed.

Lemma kw_schedule_source kw out k v :
  kw_schedule kw = Ok out → out !! k = Some v →
  k = "schedule" ∨ kw !! k = Some v.
Proof. unfold kw_schedule. intros H Hv. block_source. Qed.

Lemma kw_before_schedule_kept kw out k :
  k ∉ deleted_options → k ∉ wire_keys →
  kw_fields kw = Ok out → out !! k = kw !! k.
Proof.
  unfold deleted_options, wire_keys. intros Hd Hw Hout.
  apply kw_fields_ok in Hout as (k4 & k5 & _ & _ & _ & Hb4 & Hb5 & Hb6).
  split_keys.
  rewrite (kw_schedule_lookup k _ _ ltac:(solve_key) Hb6).
  rewrite (kw_trigger_lookup k _ _ ltac:(solve_key) Hb5).
  by rewrite (kw_always_exec_on_trigger_lookup k _ _ ltac:(solve_key) Hb4).
Qed.

(** X6: every value of an output under a key other than
    [executeOnEveryTrigger], [triggerName], [triggerOperator],
    [triggerValue] and [schedule] is the value the call was given under
    that key, and every key of the call other than those and the five
    options the normalizer deletes holds in the output what it held in the
    call. *)
Theorem output_values_from_input qc filters kw t out t' :
  _alert_creator qc filters kw t = (Ok out, t') →
  (∀ k v, out !! k = Some v → k ∈ wire_keys ∨ kw !! k = Some v)
  ∧ (∀ k, k ∉ deleted_options → k ∉ wire_keys → out !! k = kw !! k).
Proof.
  intros (-> & Hout & ->)%alert_creator_ok. split.
  - intros k v Hv.
    apply kw_fields_ok in Hout as (k4 & k5 & _ & _ & _ & H4 & H5 & H6).
    destruct (kw_schedule_source _ _ _ _ H6 Hv) as [->|Hv5];
      [left; elem_solve|].
    destruct (kw_trigger_source _ _ _ _ H5 Hv5) as [Hk|Hv4];
      [left; elem_cases Hk; elem_solve|].
    destruct (kw_always_exec_on_trigger_source _ _ _ _ H4 Hv4) as [->|Hv0];
      [left; elem_solve|by right].
  - intros k Hd Hw. by apply kw_before_schedule_kept.
Qed.

(** X7: [data_type] and [analysis_type] are read and removed only where
    the query is built: without filter expressions they are not validated
    and reach the output as given. *)
Theorem data_type_kept_without_filters qc kw v t :
  _alert_creator qc [] (<["data_type" := v]> kw) t
  = (insert "data_type" v <$> kw_fields kw, t)
  ∧ _alert_creator qc [] (<["analysis_type" := v]> kw) t
    = (insert "analysis_type" v <$> kw_fields kw, t).
Proof.
  rewrite !alert_creator_nil.
  by rewrite !kw_fields_insert by solve_key.
Qed.

(** ** Schedule options outside the ical branch *)

Lemma is_ical_schedule_not_ical kw :
  kw !! "schedule_type" ≠ Some (VStr "ical") → is_ical_schedule kw = false.
Proof.
  unfold is_ical_schedule. intros Hne.
  destruct (kw !! "schedule_type") as [st|]; [|done].
  destruct st; try done. simpl.
  rewrite bool_decide_eq_false_2; [done|]. intros ->. done.
Qed.

Lemma kw_schedule_insert_other kw k v :
  k ∈ ["schedule_start"; "schedule_repeat"] →
  kw !! "schedule_type" ≠ Some (VStr "ical") →
  kw_schedule (<[k:=v]> kw) = insert k v <$> kw_schedule kw.
Proof.
  intros Hk Hne.
  assert (k ≠ "schedule_type" ∧ k ≠ "schedule") as [Hk1 Hk2].
  { split; intros ->; elem_refute Hk. }
  unfold kw_schedule.
  rewrite (is_ical_schedule_not_ical kw) by done.
  rewrite is_ical_schedule_not_ical by by rewrite lookup_insert_ne.
  rewrite lookup_insert_ne by done.
  destruct (kw !! "schedule_type") as [st|]; [|done].
  destruct (_check "schedule_type" st Tstr _) as [s|]; [|done]. simpl.
  rewrite (insert_insert_ne _ "schedule" k) by done.
  by rewrite delitem_insert_ne.
Qed.

(** X8: unless [schedule_type] is ["ical"], [schedule_start] and
    [schedule_repeat] are neither validated nor removed: the call is the
    call without the key, with the key added to its output. *)
Theorem plain_schedule_keeps_start_and_repeat kw k v :
  k ∈ ["schedule_start"; "schedule_repeat"] →
  kw !! "schedule_type" ≠ Some (VStr "ical") →
  kw_fields (<[k:=v]> kw) = insert k v <$> kw_fields kw.
Proof.
  intros Hk Hne.
  assert (k ∉ before_schedule_keys) as Hb.
  { elem_cases Hk; solve_key. }
  unfold kw_fields. rewrite kw_before_schedule_insert by done.
  destruct (kw_before_schedule kw) as [k5|] eqn:H5; [|done]. simpl.
  apply kw_schedule_insert_other; [done|].
  by rewrite (kw_before_schedule_lookup "schedule_type" _ _
    ltac:(solve_key) H5).
Qed.

(** ** The trigger's elements, one check after the other *)

Lemma kw_before_schedule_split kw :
  kw_before_schedule kw = kw_before_trigger kw ≫= kw_trigger.
Proof.
  unfold kw_before_schedule, kw_before_trigger.
  destruct (kw_name kw) as [k1|]; [|done]. simpl.
  destruct (kw_description k1) as [k2|]; [|done]. simpl.
  by destruct (kw_query k2) as [k3|].
Qed.

Lemma kw_before_trigger_lookup k kw out :
  k ∉ name_keys ++ description_keys ++ always_exec_keys →
  kw_before_trigger kw = Ok out → out !! k = kw !! k.
Proof.
  intros Hk. unfold kw_before_trigger.
  intros (k1 & Hb1 & (k2 & Hb2 & (k3 & Hb3 & Hb4)%result_bind_ok)
    %result_bind_ok)%result_bind_ok.
  by apply (before_trigger_lookup k kw k1 k2 k3 out).
Qed.

Lemma kw_before_trigger_insert k v kw :
  k ∉ name_keys ++ description_keys ++ query_keys ++ always_exec_keys →
  kw_before_trigger (<[k:=v]> kw) = insert k v <$> kw_before_trigger kw.
Proof.
  intros Hk. unfold kw_before_trigger.
  rewrite kw_name_insert by solve_key.
  destruct (kw_name kw) as [k1|]; [|done]. simpl.
  rewrite kw_description_insert by solve_key.
  destruct (kw_description k1) as [k2|]; [|done]. simpl.
  rewrite kw_query_insert by solve_key.
  destruct (kw_query k2) as [k3|]; [|done]. simpl.
  by rewrite kw_always_exec_on_trigger_insert by solve_key.
Qed.

Lemma check_choice_rejected name obj cs :
  (∀ s, obj = VStr s → s ∉ cs) →
  _check name obj Tstr (Some cs) = Raise (ValidationError name obj (Some cs)).
Proof.
  intros Hno. unfold _check. destruct obj; try done. simpl.
  by rewrite bool_decide_eq_false_2 by by apply Hno.
Qed.

Lemma check_choice_accepted name s cs :
  s ∈ cs → _check name (VStr s) Tstr (Some cs) = Ok s.
Proof. intros Hs. unfold _check. simpl. by rewrite bool_decide_eq_true_2. Qed.

(** X9: the first three elements of the trigger are checked in order,
    and the exception names the element that fails: [triggerName] when the
    first is not text, [triggerOperator] (with the allowed operators) when
    the second is not one of them, [triggerValue] when the third is not
    text.  Earlier blocks that fail are reported first. *)
Theorem trigger_elements_checked_in_order kw a b c rest :
  kw !! "trigger" = Some (VTuple (a :: b :: c :: rest)) →
  (instance_of Tstr a = None →
   kw_fields kw
   = (_ ← kw_before_trigger kw;
      Raise (ValidationError "triggerName" a None)))
  ∧ (∀ sa, a = VStr sa →
     (∀ op, b = VStr op → op ∉ trigger_operators) →
     kw_fields kw
     = (_ ← kw_before_trigger kw;
        Raise (ValidationError "triggerOperator" b (Some trigger_operators))))
  ∧ (∀ sa op, a = VStr sa → b = VStr op → op ∈ trigger_operators →
     instance_of Tstr c = None →
     kw_fields kw
     = (_ ← kw_before_trigger kw;
        Raise (ValidationError "triggerValue" c None))).
Proof.
  intros Htr.
  assert (∀ k4, kw_before_trigger kw = Ok k4 →
    k4 !! "trigger" = Some (VTuple (a :: b :: c :: rest))) as Hk4.
  { intros k4 Hb.
    by rewrite (kw_before_trigger_lookup "trigger" _ _ ltac:(solve_key) Hb). }
  unfold kw_fields. rewrite kw_before_schedule_split.
  split_and!.
  - intros Ha.
    destruct (kw_before_trigger kw) as [k4|] eqn:Hb; [|done]. simpl.
    unfold kw_trigger. rewrite (Hk4 k4 eq_refl). simpl.
    rewrite (check_not_instance "triggerName" a) by done. reflexivity.
  - intros sa -> Hop.
    destruct (kw_before_trigger kw) as [k4|] eqn:Hb; [|done]. simpl.
    unfold kw_trigger. rewrite (Hk4 k4 eq_refl). simpl.
    rewrite (check_choice_rejected "triggerOperator" b) by done.
    reflexivity.
  - intros sa op -> -> Hop Hc.
    destruct (kw_before_trigger kw) as [k4|] eqn:Hb; [|done]. simpl.
    unfold kw_trigger. rewrite (Hk4 k4 eq_refl). simpl.
    rewrite (check_choice_accepted "triggerOperator" op) by done. simpl.
    rewrite (check_not_instance "triggerValue" c) by done. reflexivity.
Qed.

(** ** Wire keys supplied by the caller *)

Lemma kw_always_exec_on_trigger_shadow kw v :
  is_Some (kw !! "always_exec_on_trigger") →
  kw_always_exec_on_trigger (<["executeOnEveryTrigger" := v]> kw)
  = kw_always_exec_on_trigger kw.
Proof.
  intros [x Hx]. unfold kw_always_exec_on_trigger.
  rewrite lookup_insert_ne, Hx by done.
  destruct (_check "always_exec_on_trigger" x Tbool None); [|done]. simpl.
  by rewrite insert_insert_eq.
Qed.

Lemma kw_trigger_shadow kw k v :
  k ∈ ["triggerName"; "triggerOperator"; "triggerValue"] →
  is_Some (kw !! "trigger") →
  kw_trigger (<[k:=v]> kw) = kw_trigger kw.
Proof.
  intros Hk [x Hx]. unfold kw_trigger.
  assert (k ≠ "trigger") as Hne by (intros ->; elem_refute Hk).
  rewrite lookup_insert_ne, Hx by done.
  destruct (_check "trigger" x Ttuple None); [|done]. simpl.
  destruct (subscript x 0) as [x0|]; [|done]. simpl.
  destruct (_check "triggerName" x0 Tstr None) as [n|]; [|done]. simpl.
  destruct (subscript x 1) as [x1|]; [|done]. simpl.
  destruct (_check "triggerOperator" x1 Tstr _) as [o|]; [|done]. simpl.
  destruct (subscript x 2) as [x2|]; [|done]. simpl.
  destruct (_check "triggerValue" x2 Tstr None) as [c|]; [|done]. simpl.
  f_equal. apply map_eq. intros i.
  elem_cases Hk;
    repeat (rewrite lookup_insert; case_decide; simplify_eq; try done).
Qed.

Lemma kw_schedule_shadow kw v :
  is_Some (kw !! "schedule_type") →
  kw_schedule (<["schedule" := v]> kw) = kw_schedule kw.
Proof.
  intros [st Hst]. unfold kw_schedule.
  replace (is_ical_schedule (<["schedule" := v]> kw))
    with (is_ical_schedule kw)
    by (unfold is_ical_schedule; by rewrite !lookup_insert_ne by done).
  destruct (is_ical_schedule kw).
  - unfold getitem. rewrite !lookup_insert_ne by done.
    destruct (kw !! "schedule_start") as [a|]; [|done]. simpl.
    destruct (_check "schedule_start" a Tstr None) as [a'|]; [|done]. simpl.
    destruct (kw !! "schedule_repeat") as [r|]; [|done]. simpl.
    destruct (_check "schedule_repeat" r Tstr None) as [r'|]; [|done]. simpl.
    by rewrite insert_insert_eq.
  - rewrite lookup_insert_ne, Hst by done.
    destruct (_check "schedule_type" st Tstr _) as [s|]; [|done]. simpl.
    by rewrite insert_insert_eq.
Qed.

(** X10: a wire key supplied together with its option has no effect:
    [executeOnEveryTrigger] with [always_exec_on_trigger], a trigger key
    with [trigger], [schedule] with [schedule_type]. *)
Theorem wire_key_replaced_by_option kw k v :
  (k = "executeOnEveryTrigger" ∧ is_Some (kw !! "always_exec_on_trigger"))
  ∨ (k ∈ ["triggerName"; "triggerOperator"; "triggerValue"]
     ∧ is_Some (kw !! "trigger"))
  ∨ (k = "schedule" ∧ is_Some (kw !! "schedule_type")) →
  kw_fields (<[k:=v]> kw) = kw_fields kw.
Proof.
  intros [[-> Hopt]|[[Hk Hopt]|[-> Hopt]]].
  - unfold kw_fields, kw_before_schedule.
    rewrite kw_name_insert by solve_key.
    destruct (kw_name kw) as [k1|] eqn:Hb1; [|done]. simpl.
    rewrite kw_description_insert by solve_key.
    destruct (kw_description k1) as [k2|] eqn:Hb2; [|done]. simpl.
    rewrite kw_query_insert by solve_key.
    destruct (kw_query k2) as [k3|] eqn:Hb3; [|done]. simpl.
    rewrite kw_always_exec_on_trigger_shadow; [done|].
    rewrite (kw_query_lookup _ _ _ Hb3).
    rewrite (kw_description_lookup "always_exec_on_trigger" _ _
      ltac:(solve_key) Hb2).
    by rewrite (kw_name_lookup "always_exec_on_trigger" _ _
      ltac:(solve_key) Hb1).
  - unfold kw_fields. rewrite !kw_before_schedule_split.
    rewrite kw_before_trigger_insert by (elem_cases Hk; solve_key).
    destruct (kw_before_trigger kw) as [k4|] eqn:Hb; [|done]. simpl.
    rewrite kw_trigger_shadow; [done..|].
    by rewrite (kw_before_trigger_lookup "trigger" _ _ ltac:(solve_key) Hb).
  - unfold kw_fields.
    rewrite kw_before_schedule_insert by solve_key.
    destruct (kw_before_schedule kw) as [k5|] eqn:Hb; [|done]. simpl.
    rewrite kw_schedule_shadow; [done|].
    by rewrite (kw_before_schedule_lookup "schedule_type" _ _
      ltac:(solve_key) Hb).
Qed.

(** X11: a wire key supplied without its option is not validated and
    reaches the output as given. *)
Theorem wire_key_kept_without_option kw k v :
  (k = "executeOnEveryTrigger" ∧ kw !! "always_exec_on_trigger" = None)
  ∨ (k ∈ ["triggerName"; "triggerOperator"; "triggerValue"]
     ∧ kw !! "trigger" = None)
  ∨ (k = "schedule" ∧ kw !! "schedule_type" = None) →
  kw_fields (<[k:=v]> kw) = insert k v <$> kw_fields kw.
Proof.
  intros [[-> Hopt]|[[Hk Hopt]|[-> Hopt]]].
  - unfold kw_fields, kw_before_schedule.
    rewrite kw_name_insert by solve_key.
    destruct (kw_name kw) as [k1|] eqn:Hb1; [|done]. simpl.
    rewrite kw_description_insert by solve_key.
    destruct (kw_description k1) as [k2|] eqn:Hb2; [|done]. simpl.
    rewrite kw_query_insert by solve_key.
    destruct (kw_query k2) as [k3|] eqn:Hb3; [|done]. simpl.
    assert (k3 !! "always_exec_on_trigger" = None) as Hno.
    { rewrite (kw_query_lookup _ _ _ Hb3).
      rewrite (kw_description_lookup "always_exec_on_trigger" _ _
        ltac:(solve_key) Hb2).
      by rewrite (kw_name_lookup "always_exec_on_trigger" _ _
        ltac:(solve_key) Hb1). }
    rewrite !kw_always_exec_on_trigger_absent
      by by rewrite ?lookup_insert_ne.
    simpl. rewrite kw_trigger_insert by solve_key.
    destruct (kw_trigger k3) as [k5|]; [|done]. simpl.
    by rewrite kw_schedule_insert by solve_key.
  - unfold kw_fields. rewrite !kw_before_schedule_split.
    assert (k ≠ "trigger") as Hne by (intros ->; elem_refute Hk).
    rewrite kw_before_trigger_insert by (elem_cases Hk; solve_key).
    destruct (kw_before_trigger kw) as [k4|] eqn:Hb; [|done]. simpl.
    assert (k4 !! "trigger" = None) as Hno.
    { by rewrite (kw_before_trigger_lookup "trigger" _ _
        ltac:(solve_key) Hb). }
    rewrite !kw_trigger_absent by by rewrite ?lookup_insert_ne.
    simpl. by rewrite kw_schedule_insert by (elem_cases Hk; solve_key).
  - unfold kw_fields.
    rewrite kw_before_schedule_insert by solve_key.
    destruct (kw_before_schedule kw) as [k5|] eqn:Hb; [|done]. simpl.
    assert (k5 !! "schedule_type" = None) as Hno.
    { by rewrite (kw_before_schedule_lookup "schedule_type" _ _
        ltac:(solve_key) Hb). }
    by rewrite !kw_schedule_absent by by rewrite ?lookup_insert_ne.
Qed.

(** * Further properties of the endpoint methods *)

(** ** One request at most *)

Lemma requests_app t1 t2 : requests (t1 ++ t2) = requests t1 ++ requests t2.
Proof. apply filter_app. Qed.

Lemma requests_no_request evs :
  Forall (fun e => is_request e = false) evs → requests evs = [].
Proof.
  induction 1 as [|e evs He _ IH]; [done|].
  unfold requests in *. rewrite filter_cons, IH.
  rewrite decide_False; [done|]. by rewrite He.
Qed.

Lemma requests_singleton m p ps js :
  requests [Request m p ps js] = [Request m p ps js].
Proof. done. Qed.

(** What a method does once its arguments are checked. *)
Lemma api_response session m p ps js t :
  (reply ← api session m p ps js; lift (member reply "response")) t
  = (session m p ps js ≫= (fun reply => member reply "response"),
     t ++ [Request m p ps js]).
Proof.
  unfold api. cbv [mbind M_bind lift emit result_bind].
  by destruct (session m p ps js).
Qed.

(** A call raises before it sends anything, or sends one request and
    answers with the [response] member of the reply. *)
Lemma run_call_cases qc session c t :
  (∃ e pre,
     run_call qc session c t = (Raise e, t ++ pre)
     ∧ Forall (fun e => is_request e = false) pre)
  ∨ (∃ pre m p ps js,
       run_call qc session c t
       = (session m p ps js ≫= (fun reply => member reply "response"),
          (t ++ pre) ++ [Request m p ps js])
       ∧ Forall (fun e => is_request e = false) pre).
Proof.
  assert (∀ filters kw, ∃ r pre,
    _alert_creator qc filters kw t = (r, t ++ pre)
    ∧ Forall (fun e => is_request e = false) pre) as Hac.
  { intros [|f fs] kw.
    - exists (kw_fields kw), []. by rewrite alert_creator_nil, app_nil_r.
    - eexists _, _. rewrite alert_creator_cons. split; [done|].
      by repeat constructor. }
  destruct c as [fields|id fields|filters kw|id filters kw|id|id]; simpl.
  - unfold list'. destruct (fields_params fields) as [params|e].
    + right. exists [], GET, "alert", (Some params), None.
      split; [|done]. rewrite app_nil_r.
      apply (api_response session GET "alert" (Some params) None t).
    + left. exists e, []. by rewrite app_nil_r.
  - unfold details. destruct (fields_params fields) as [params|e].
    + destruct (_check "id" id Tint None) as [i|e].
      * right. exists [], GET, ("alert/" +:+ str_int i), (Some params), None.
        split; [|done]. rewrite app_nil_r.
        apply (api_response session GET _ (Some params) None t).
      * left. exists e, []. by rewrite app_nil_r.
    + left. exists e, []. by rewrite app_nil_r.
  - destruct (Hac filters kw) as ([payload|e] & pre & Hrun & Hpre).
    + right. exists pre, POST, "alert", None, (Some payload).
      split; [|done]. unfold create.
      cbv [mbind M_bind] in *. rewrite Hrun.
      apply (api_response session POST "alert" None (Some payload)).
    + left. exists e, pre. split; [|done]. by apply create_raise.
  - destruct (Hac filters kw) as ([payload|e] & pre & Hrun & Hpre).
    + destruct (_check "id" id Tint None) as [i|e] eqn:Hid.
      * right.
        exists pre, PATCH, ("alert/" +:+ str_int i), None, (Some payload).
        split; [|done]. unfold update.
        cbv [mbind M_bind] in *. rewrite Hrun. cbv [lift]. rewrite Hid.
        apply (api_response session PATCH _ None (Some payload)).
      * left. exists e, pre. split; [|done]. unfold update.
        cbv [mbind M_bind] in *. rewrite Hrun. cbv [lift]. by rewrite Hid.
    + left. exists e, pre. split; [|done]. by apply update_raise.
  - unfold delete'. destruct (_check "id" id Tint None) as [i|e].
    + right. exists [], DELETE, ("alert/" +:+ str_int i), None, None.
      split; [|done]. rewrite app_nil_r.
      apply (api_response session DELETE _ None None t).
    + left. exists e, []. by rewrite app_nil_r.
  - unfold execute. destruct (_check "id" id Tint None) as [i|e].
    + right.
      exists [], POST, ("alert/" +:+ str_int i +:+ "/execute"), None, None.
      split; [|done]. rewrite app_nil_r.
      apply (api_response session POST _ None None t).
    + left. exists e, []. by rewrite app_nil_r.
Qed.

(** X12: a call of any of the six methods only adds to the trace, and
    adds one request at most; when it returns a value, it has sent one
    request, the decoded reply is a dictionary, and the value is its
    [response] member. *)
Theorem at_most_one_request qc session c t :
  ∃ evs,
    (run_call qc session c t).2 = t ++ evs
    ∧ (List.length (requests evs) ≤ 1)%nat
    ∧ ∀ v, (run_call qc session c t).1 = Ok v →
        ∃ m p ps js d,
          requests evs = [Request m p ps js]
          ∧ session m p ps js = Ok (VDict d)
          ∧ d !! "response" = Some v.
Proof.
  destruct (run_call_cases qc session c t)
    as [(e & pre & -> & Hpre)|(pre & m & p & ps & js & -> & Hpre)]; simpl.
  - exists pre. rewrite requests_no_request by done.
    split_and!; [done|simpl; lia|].
    intros v [=].
  - exists (pre ++ [Request m p ps js]).
    rewrite requests_app, requests_no_request by done. simpl.
    split_and!; [by rewrite app_assoc|simpl; lia|].
    intros v Hv. exists m, p, ps, js.
    destruct (session m p ps js) as [reply|] eqn:Hs; [|done]. simpl in Hv.
    destruct reply as [| | | | | |d]; try done. simpl in Hv.
    exists d. unfold getitem in Hv.
    destruct (d !! "response") as [r|] eqn:Hr; [|done]. by simplify_eq.
Qed.

(** X13: once a method has sent its request, the reply decides the
    result: an exception of the session is raised again unchanged, a
    dictionary without [response] raises [KeyError], a dictionary with it
    gives its value. *)
Theorem reply_decides_result qc session c t evs m p ps js :
  (run_call qc session c t).2 = t ++ evs →
  Request m p ps js ∈ evs →
  (run_call qc session c t).1
  = session m p ps js ≫= (fun reply => member reply "response")
  ∧ (∀ e, session m p ps js = Raise e →
     (run_call qc session c t).1 = Raise e)
  ∧ (∀ d, session m p ps js = Ok (VDict d) → d !! "response" = None →
     (run_call qc session c t).1 = Raise (KeyError "response"))
  ∧ (∀ d r, session m p ps js = Ok (VDict d) → d !! "response" = Some r →
     (run_call qc session c t).1 = Ok r).
Proof.
  intros Hevs Hin.
  assert ((run_call qc session c t).1
    = session m p ps js ≫= (fun reply => member reply "response")) as Heq.
  { destruct (run_call_cases qc session c t)
      as [(e & pre & Hrun & Hpre)|(pre & m' & p' & ps' & js' & Hrun & Hpre)];
      rewrite Hrun in Hevs |- *; simpl in *.
    - apply app_inv_head in Hevs as <-.
      rewrite Forall_forall in Hpre. by apply Hpre in Hin.
    - rewrite <-app_assoc in Hevs. apply app_inv_head in Hevs as <-.
      apply elem_of_app in Hin as [Hin|Hin].
      + rewrite Forall_forall in Hpre. by apply Hpre in Hin.
      + apply list_elem_of_singleton in Hin. by simplify_eq. }
  split_and!; [done|..].
  - intros e He. by rewrite Heq, He.
  - intros d Hd Hr. rewrite Heq, Hd. simpl. unfold getitem. by rewrite Hr.
  - intros d r Hd Hr. rewrite Heq, Hd. simpl. unfold getitem. by rewrite Hr.
Qed.

(** ** The projection on fields *)

Lemma mapM_check_first_bad names bad rest :
  instance_of Tstr bad = None →
  mapM (B:=string) (fun f => _check "field" f Tstr None)
    ((VStr <$> names) ++ bad :: rest)
  = Raise (ValidationError "field" bad None).
Proof.
  intros Hbad. induction names as [|n names IH].
  - rewrite fmap_nil, app_nil_l, mapM_result_cons.
    by rewrite (check_not_instance "field" bad) by done.
  - rewrite fmap_cons, <-app_comm_cons, mapM_result_cons, IH. done.
Qed.

Lemma fields_params_first_bad names bad rest :
  instance_of Tstr bad = None →
  fields_params (Some ((VStr <$> names) ++ bad :: rest))
  = Raise (ValidationError "field" bad None).
Proof.
  intros Hbad. unfold fields_params.
  destruct ((VStr <$> names) ++ bad :: rest) as [|f fs] eqn:Hfs.
  { by destruct names. }
  rewrite <-Hfs. by rewrite mapM_check_first_bad.
Qed.

(** X14: [list] and [details] report the first field that is not text,
    whatever follows it and whatever the id is, and send nothing. *)
Theorem first_non_text_field_reported session names bad rest t :
  instance_of Tstr bad = None →
  list' session (Some ((VStr <$> names) ++ bad :: rest)) t
  = (Raise (ValidationError "field" bad None), t)
  ∧ ∀ id,
      details session id (Some ((VStr <$> names) ++ bad :: rest)) t
      = (Raise (ValidationError "field" bad None), t).
Proof.
  intros Hbad. unfold list', details. cbv [mbind M_bind lift].
  by rewrite fields_params_first_bad.
Qed.

Lemma fields_params_text names :
  names ≠ [] → fields_params (Some (VStr <$> names)) = Ok (fields_of names).
Proof.
  intros Hne. unfold fields_params. destruct names as [|n names]; [done|].
  rewrite fmap_cons, <-fmap_cons, mapM_check_str. done.
Qed.

(** X15: field names are joined without escaping: one field that holds
    the names already joined by commas gives the call of the separate
    names, for [list] and for [details]. *)
Theorem fields_joined_beforehand session names t :
  names ≠ [] →
  list' session (Some [VStr (join "," names)]) t
  = list' session (Some (VStr <$> names)) t
  ∧ ∀ id,
      details session id (Some [VStr (join "," names)]) t
      = details session id (Some (VStr <$> names)) t.
Proof.
  intros Hne.
  assert (fields_params (Some [VStr (join "," names)])
          = fields_params (Some (VStr <$> names))) as Heq.
  { change [VStr (join "," names)] with (VStr <$> [join "," names]).
    by rewrite !fields_params_text by done. }
  unfold list', details. cbv [mbind M_bind lift]. by rewrite Heq.
Qed.

(** ** [create] and [update] *)

(** X16: without filter expressions, [create] and [update] send the
    normalized keyword bag as the JSON body of their one request, [POST
    alert] and [PATCH alert/<id>]; when the normalization raises, both
    raise the same exception and send nothing, [update] whatever its id
    is. *)
Theorem create_update_send_payload qc session kw t :
  (∀ payload, kw_fields kw = Ok payload →
     create qc session [] kw t
     = (session POST "alert" None (Some payload)
          ≫= (fun reply => member reply "response"),
        t ++ [Request POST "alert" None (Some payload)])
     ∧ ∀ id i, instance_of Tint id = Some i →
         update qc session id [] kw t
         = (session PATCH ("alert/" +:+ str_int i) None (Some payload)
              ≫= (fun reply => member reply "response"),
            t ++ [Request PATCH ("alert/" +:+ str_int i) None
                    (Some payload)]))
  ∧ (∀ e, kw_fields kw = Raise e →
     create qc session [] kw t = (Raise e, t)
     ∧ ∀ id, update qc session id [] kw t = (Raise e, t)).
Proof.
  split.
  - intros payload Hp. split.
    + unfold create. cbv [mbind M_bind]. rewrite alert_creator_nil, Hp.
      apply (api_response session POST "alert" None (Some payload)).
    + intros id i Hid. unfold update, _check.
      cbv [mbind M_bind]. rewrite alert_creator_nil, Hp.
      cbv [lift]. rewrite Hid.
      apply (api_response session PATCH _ None (Some payload)).
  - intros e He. split.
    + apply create_raise. by rewrite alert_creator_nil, He.
    + intros id. apply update_raise. by rewrite alert_creator_nil, He.
Qed.

Lemma kw_fields_no_option kw :
  (∀ k, k ∈ tested_options → kw !! k = None) → kw_fields kw = Ok kw.
Proof.
  unfold tested_options. intros Hno.
  apply kw_fields_ok. exists kw, kw.
  split_and!.
  - apply kw_name_text. rewrite Hno by elem_solve. done.
  - apply kw_description_text. rewrite Hno by elem_solve. done.
  - apply kw_query_absent, Hno. elem_solve.
  - apply kw_always_exec_on_trigger_absent, Hno. elem_solve.
  - apply kw_trigger_absent, Hno. elem_solve.
  - apply kw_schedule_absent, Hno. elem_solve.
Qed.

(** X17: no option is required: a keyword bag with none of the options
    the blocks test for, the empty one among them, is the output of the
    normalizer and the body that [create] sends. *)
Theorem no_option_is_required qc session kw t :
  (∀ k, k ∈ tested_options → kw !! k = None) →
  _alert_creator qc [] kw t = (Ok kw, t)
  ∧ create qc session [] kw t
    = (session POST "alert" None (Some kw)
         ≫= (fun reply => member reply "response"),
       t ++ [Request POST "alert" None (Some kw)]).
Proof.
  intros Hno. pose proof (kw_fields_no_option kw Hno) as Hkw.
  split; [by rewrite alert_creator_nil, Hkw|].
  unfold create. cbv [mbind M_bind]. rewrite alert_creator_nil, Hkw.
  apply (api_response session POST "alert" None (Some kw)).
Qed.

(** ** Paths *)

Lemma append_length s1 s2 :
  String.length (s1 +:+ s2) = (String.length s1 + String.length s2)%nat.
Proof. induction s1 as [|c s1 IH]; simpl; [done|]. by rewrite IH. Qed.

Lemma append_inj_r s1 s2 suffix :
  s1 +:+ suffix = s2 +:+ suffix → s1 = s2.
Proof.
  revert s2. induction s1 as [|c s1 IH]; intros [|c' s2] H.
  - done.
  - apply (f_equal String.length) in H.
    rewrite !append_length in H. simpl in H. lia.
  - apply (f_equal String.length) in H.
    rewrite !append_length in H. simpl in H. lia.
  - injection H as -> H. f_equal. by apply IH.
Qed.

(** X18: two integer ids that give the same trace are equal, for
    [delete], [execute] and [details]: the path of the request determines
    the id. *)
Theorem integer_ids_have_distinct_paths session z1 z2 t :
  ((delete' session (VInt z1) t).2 = (delete' session (VInt z2) t).2 →
   z1 = z2)
  ∧ ((execute session (VInt z1) t).2 = (execute session (VInt z2) t).2 →
     z1 = z2)
  ∧ ((details session (VInt z1) None t).2
     = (details session (VInt z2) None t).2 →
     z1 = z2).
Proof.
  assert (∀ z, delete' session (VInt z) t
    = (session DELETE ("alert/" +:+ pretty z) None None
         ≫= (fun reply => member reply "response"),
       t ++ [Request DELETE ("alert/" +:+ pretty z) None None])) as Hdel.
  { intros z. apply (api_response session DELETE _ None None t). }
  assert (∀ z, execute session (VInt z) t
    = (session POST ("alert/" +:+ pretty z +:+ "/execute") None None
         ≫= (fun reply => member reply "response"),
       t ++ [Request POST ("alert/" +:+ pretty z +:+ "/execute") None None]))
    as Hexe.
  { intros z. apply (api_response session POST _ None None t). }
  assert (∀ z, details session (VInt z) None t
    = (session GET ("alert/" +:+ pretty z) (Some ∅) None
         ≫= (fun reply => member reply "response"),
       t ++ [Request GET ("alert/" +:+ pretty z) (Some ∅) None])) as Hdet.
  { intros z. apply (api_response session GET _ (Some ∅) None t). }
  split_and!.
  - rewrite !Hdel. simpl. intros H. apply app_inv_head in H.
    injection H as H. change (pretty z1 = pretty z2) in H.
    by apply (inj pretty).
  - rewrite !Hexe. simpl. intros H. apply app_inv_head in H.
    injection H as H.
    change (pretty z1 +:+ "/execute" = pretty z2 +:+ "/execute") in H.
    apply append_inj_r in H. by apply (inj pretty).
  - rewrite !Hdet. simpl. intros H. apply app_inv_head in H.
    injection H as H. change (pretty z1 = pretty z2) in H.
    by apply (inj pretty).
Qed.

(** ** The exceptions of the normalizer *)

Lemma checked_exception field v choices :
  field ∈ checked_fields →
  normalizer_exception (ValidationError field v choices).
Proof. intros Hf. left. by exists field, v, choices. Qed.

Ltac check_fails H :=
  apply check_raise in H as ->; apply checked_exception;
  unfold checked_fields; elem_solve.

Lemma kw_name_exception kw e :
  kw_name kw = Raise e → normalizer_exception e.
Proof.
  unfold kw_name. destruct (kw !! "name") as [v|]; [|done].
  destruct (_check "name" v Tstr None) eqn:Hc; simpl; [done|].
  intros [= <-]. check_fails Hc.
Qed.

Lemma kw_description_exception kw e :
  kw_description kw = Raise e → normalizer_exception e.
Proof.
  unfold kw_description. destruct (kw !! "description") as [v|]; [|done].
  destruct (_check "description" v Tstr None) eqn:Hc; simpl; [done|].
  intros [= <-]. check_fails Hc.
Qed.

Lemma kw_query_exception kw e :
  kw_query kw = Raise e → normalizer_exception e.
Proof.
  destruct (kw !! "query") as [v|] eqn:Hq.
  - rewrite (kw_query_present kw v) by done.
    destruct (_check "query" v Tdict None) eqn:Hc; simpl; intros [= <-].
    + right. by left.
    + check_fails Hc.
  - by rewrite kw_query_absent.
Qed.

Lemma kw_always_exec_on_trigger_exception kw e :
  kw_always_exec_on_trigger kw = Raise e → normalizer_exception e.
Proof.
  unfold kw_always_exec_on_trigger.
  destruct (kw !! "always_exec_on_trigger") as [v|] eqn:Hv; [|done].
  destruct (_check "always_exec_on_trigger" v Tbool None) eqn:Hc; simpl.
  - rewrite delitem_insert_ne by done. unfold delitem. by rewrite Hv.
  - intros [= <-]. check_fails Hc.
Qed.

Lemma subscript_tuple_exception l i e :
  subscript (VTuple l) i = Raise e → e = IndexError.
Proof. simpl. destruct (l !! i); by intros [= <-]. Qed.

Lemma kw_trigger_exception kw e :
  kw_trigger kw = Raise e → normalizer_exception e.
Proof.
  unfold kw_trigger. destruct (kw !! "trigger") as [v|] eqn:Hv; [|done].
  destruct (_check "trigger" v Ttuple None) as [l|] eqn:Hc; simpl.
  2: { intros [= <-]. check_fails Hc. }
  assert (v = VTuple l) as ->.
  { unfold _check in Hc. destruct v; simpl in Hc; by simplify_eq. }
  destruct (subscript (VTuple l) 0) as [x0|] eqn:H0; cbn [mbind result_bind].
  2: { intros [= <-]. apply subscript_tuple_exception in H0 as ->.
       right. by right. }
  destruct (_check "triggerName" x0 Tstr None) as [n|] eqn:Hn;
    cbn [mbind result_bind].
  2: { intros [= <-]. check_fails Hn. }
  destruct (subscript (VTuple l) 1) as [x1|] eqn:H1; cbn [mbind result_bind].
  2: { intros [= <-]. apply subscript_tuple_exception in H1 as ->.
       right. by right. }
  destruct (_check "triggerOperator" x1 Tstr _) as [o|] eqn:Ho;
    cbn [mbind result_bind].
  2: { intros [= <-]. check_fails Ho. }
  destruct (subscript (VTuple l) 2) as [x2|] eqn:H2; cbn [mbind result_bind].
  2: { intros [= <-]. apply subscript_tuple_exception in H2 as ->.
       right. by right. }
  destruct (_check "triggerValue" x2 Tstr None) as [c|] eqn:Hv2;
    cbn [mbind result_bind].
  2: { intros [= <-]. check_fails Hv2. }
  rewrite !delitem_insert_ne by done. unfold delitem. by rewrite Hv.
Qed.

Lemma kw_schedule_exception kw e :
  kw_schedule kw = Raise e → normalizer_exception e.
Proof.
  unfold kw_schedule. destruct (is_ical_schedule kw) eqn:Hical.
  - unfold is_ical_schedule in Hical.
    destruct (kw !! "schedule_type") as [st|] eqn:Hst; [|done].
    apply andb_prop in Hical as [[_ Hs%bool_decide_eq_true]%andb_prop
      Hr%bool_decide_eq_true].
    destruct Hs as [sv Hs], Hr as [rv Hr].
    unfold getitem. rewrite Hs, Hr. cbn [mbind result_bind].
    destruct (_check "schedule_start" sv Tstr None) as [a|] eqn:Ha;
      cbn [mbind result_bind].
    2: { intros [= <-]. check_fails Ha. }
    destruct (_check "schedule_repeat" rv Tstr None) as [r|] eqn:Hb;
      cbn [mbind result_bind].
    2: { intros [= <-]. check_fails Hb. }
    unfold delitem. by simplify_map_eq.
  - destruct (kw !! "schedule_type") as [st|] eqn:Hst; [|done].
    destruct (_check "schedule_type" st Tstr _) as [s|] eqn:Hc; simpl.
    + rewrite delitem_insert_ne by done. unfold delitem. by rewrite Hst.
    + intros [= <-]. check_fails Hc.
Qed.

Lemma kw_fields_exception kw e :
  kw_fields kw = Raise e → normalizer_exception e.
Proof.
  unfold kw_fields, kw_before_schedule.
  destruct (kw_name kw) as [k1|e1] eqn:Hb1; simpl;
    [|intros [= <-]; by eapply kw_name_exception].
  destruct (kw_description k1) as [k2|e2] eqn:Hb2; simpl;
    [|intros [= <-]; by eapply kw_description_exception].
  destruct (kw_query k2) as [k3|e3] eqn:Hb3; simpl;
    [|intros [= <-]; by eapply kw_query_exception].
  destruct (kw_always_exec_on_trigger k3) as [k4|e4] eqn:Hb4; simpl;
    [|intros [= <-]; by eapply kw_always_exec_on_trigger_exception].
  destruct (kw_trigger k4) as [k5|e5] eqn:Hb5; simpl;
    [|intros [= <-]; by eapply kw_trigger_exception].
  apply (kw_schedule_exception k5).
Qed.

(** X19: an exception of the normalizer is the [ValidationError] of one
    of the fields it checks, the [NameError] of [doc], an [IndexError] of
    the trigger, or, with filter expressions, an exception of the query
    constructor; the [del] statements never raise. *)
Theorem normalizer_exceptions qc filters kw t e t' :
  _alert_creator qc filters kw t = (Raise e, t') →
  normalizer_exception e
  ∨ (filters ≠ [] ∧ ∃ ckw, qc filters ckw = Raise e).
Proof.
  destruct filters as [|f fs].
  - rewrite alert_creator_nil. intros [= He _]. left.
    by apply (kw_fields_exception kw).
  - rewrite alert_creator_cons. intros [= He _].
    destruct (qc (f :: fs) (constructor_kw kw)) as [q|e'] eqn:Hq;
      simpl in He.
    + left. by apply (kw_fields_exception (with_query kw q)).
    + right. split; [done|]. exists (constructor_kw kw). by simplify_eq.
Qed.

(** ** Concrete runs of the further properties *)

Lemma alert_creator_trace_witness :
  [sample_filter] ≠ []
  ∧ ∃ ckw,
      (_alert_creator sample_query_constructor [sample_filter]
         kw_text_name []).2
      = [] ++ [QueryConstructor [sample_filter] ckw]
      ∧ ckw !! "data_type" = Some (VStr "lce")
      ∧ ckw !! "analysis_type" = Some (VStr "lce")
      ∧ ckw !! "name" = Some (VStr "X").
Proof.
  assert ([sample_filter] ≠ []) as Hne by discriminate.
  split; [done|].
  destruct (alert_creator_trace sample_query_constructor [sample_filter]
    kw_text_name []) as [_ H].
  destruct (H Hne) as (ckw & Ht & Hd & Ha & Hk).
  exists ckw. split_and!; [done|by rewrite Hd|by rewrite Ha|].
  by rewrite Hk.
Defined.

Lemma query_constructor_outcome_witness :
  failing_query_constructor [sample_filter] (constructor_kw kw_bad_name)
  = Raise (BuilderError "unknown filter")
  ∧ _alert_creator failing_query_constructor [sample_filter] kw_bad_name []
    = (Raise (BuilderError "unknown filter"),
       [] ++ [QueryConstructor [sample_filter] (constructor_kw kw_bad_name)])
  ∧ instance_of Tdict (VList [sample_filter]) = None
  ∧ _alert_creator list_query_constructor [sample_filter] kw_never []
    = (Raise (ValidationError "query" (VList [sample_filter]) None),
       [] ++ [QueryConstructor [sample_filter] (constructor_kw kw_never)]).
Proof.
  split_and!; [reflexivity| |reflexivity|].
  - destruct (query_constructor_outcome failing_query_constructor
      sample_filter [] kw_bad_name []) as [H _].
    by rewrite (H _ eq_refl).
  - destruct (query_constructor_outcome list_query_constructor
      sample_filter [] kw_never []) as [_ H].
    destruct (H (VList [sample_filter]) eq_refl eq_refl) as (e & -> & _ & He).
    by rewrite He.
Defined.

Lemma name_checked_first_witness :
  kw_bad_name !! "name" = Some (VInt 7)
  ∧ instance_of Tstr (VInt 7) = None
  ∧ _alert_creator sample_query_constructor [] kw_bad_name []
    = (Raise (ValidationError "name" (VInt 7) None), []).
Proof.
  assert (kw_bad_name !! "name" = Some (VInt 7)) as Hn by reflexivity.
  split_and!; [done..|].
  destruct (name_checked_first sample_query_constructor kw_bad_name [])
    as [H _].
  by apply H.
Defined.

Lemma normalizer_idempotent_witness :
  _alert_creator sample_query_constructor [] kw_always_exec []
  = (Ok {["name" := VStr "X"; "executeOnEveryTrigger" := VStr "true"]}, [])
  ∧ _alert_creator sample_query_constructor []
      {["name" := VStr "X"; "executeOnEveryTrigger" := VStr "true"]} []
    = (Ok {["name" := VStr "X"; "executeOnEveryTrigger" := VStr "true"]}, []).
Proof.
  assert (_alert_creator sample_query_constructor [] kw_always_exec []
    = (Ok {["name" := VStr "X"; "executeOnEveryTrigger" := VStr "true"]}, []))
    as Hrun by (vm_compute; reflexivity).
  split; [done|].
  by apply (normalizer_idempotent sample_query_constructor kw_always_exec []).
Defined.

Lemma output_values_from_input_witness :
  _alert_creator sample_query_constructor [] kw_text_name []
  = (Ok kw_text_name, [])
  ∧ ∀ k v, kw_text_name !! k = Some v →
      k ∈ wire_keys ∨ kw_text_name !! k = Some v.
Proof.
  assert (_alert_creator sample_query_constructor [] kw_text_name []
    = (Ok kw_text_name, [])) as Hrun by (vm_compute; reflexivity).
  split; [done|].
  by destruct (output_values_from_input sample_query_constructor []
    kw_text_name [] kw_text_name [] Hrun) as [H _].
Defined.

Lemma output_shape_witness :
  _alert_creator sample_query_constructor [] kw_long_trigger []
  = (Ok (trigger_fields "sumip" ">=" "100" ∅), [])
  ∧ trigger_fields "sumip" ">=" "100" ∅ !! "trigger" = None.
Proof.
  assert (_alert_creator sample_query_constructor [] kw_long_trigger []
    = (Ok (trigger_fields "sumip" ">=" "100" ∅), [])) as Hrun
    by (vm_compute; reflexivity).
  split; [done|].
  by destruct (output_shape sample_query_constructor [] kw_long_trigger []
    _ [] Hrun) as (_ & _ & H & _).
Defined.

Lemma plain_schedule_keeps_start_and_repeat_witness :
  "schedule_start" ∈ ["schedule_start"; "schedule_repeat"]
  ∧ kw_never !! "schedule_type" ≠ Some (VStr "ical")
  ∧ kw_fields kw_never_with_start
    = Ok {["schedule" := plain_schedule "never"; "schedule_start" := VInt 5]}.
Proof.
  assert ("schedule_start" ∈ ["schedule_start"; "schedule_repeat"]) as Hk
    by by_compute.
  assert (kw_never !! "schedule_type" ≠ Some (VStr "ical")) as Hne
    by (vm_compute; discriminate).
  split_and!; [done..|].
  change kw_never_with_start with (<["schedule_start" := VInt 5]> kw_never).
  rewrite (plain_schedule_keeps_start_and_repeat kw_never "schedule_start"
    (VInt 5) Hk Hne).
  vm_compute. reflexivity.
Defined.

Lemma trigger_elements_checked_in_order_witness :
  kw_bad_operator !! "trigger"
  = Some (VTuple (VStr "sumip" :: VStr "~" :: VInt 100 :: []))
  ∧ kw_fields kw_bad_operator
    = Raise (ValidationError "triggerOperator" (VStr "~")
               (Some trigger_operators)).
Proof.
  assert (kw_bad_operator !! "trigger"
    = Some (VTuple (VStr "sumip" :: VStr "~" :: VInt 100 :: []))) as Htr
    by reflexivity.
  split; [done|].
  destruct (trigger_elements_checked_in_order kw_bad_operator
    (VStr "sumip") (VStr "~") (VInt 100) [] Htr) as (_ & H & _).
  rewrite (H "sumip" eq_refl); [reflexivity|].
  intros op [= <-] Hop. refute_elem Hop.
Defined.

Lemma wire_key_kept_without_option_witness :
  kw_named !! "schedule_type" = None
  ∧ kw_fields (<["schedule" := VStr "monthly"]> kw_named)
    = Ok (<["schedule" := VStr "monthly"]> kw_named).
Proof.
  assert (kw_named !! "schedule_type" = None) as Hno by reflexivity.
  split; [done|].
  rewrite (wire_key_kept_without_option kw_named "schedule" (VStr "monthly"));
    [reflexivity|].
  right. right. by split.
Defined.

Lemma wire_key_replaced_by_option_witness :
  is_Some (kw_never !! "schedule_type")
  ∧ kw_fields (<["schedule" := VStr "monthly"]> kw_never)
    = Ok {["schedule" := plain_schedule "never"]}.
Proof.
  assert (is_Some (kw_never !! "schedule_type")) as Hsome by by_compute.
  split; [done|].
  rewrite (wire_key_replaced_by_option kw_never "schedule" (VStr "monthly"));
    [reflexivity|].
  right. right. by split.
Defined.

Lemma reply_decides_result_witness :
  (run_call sample_query_constructor refusing_session
     (CallDelete (VInt 5)) []).2
  = [] ++ [Request DELETE "alert/5" None None]
  ∧ Request DELETE "alert/5" None None ∈ [Request DELETE "alert/5" None None]
  ∧ (run_call sample_query_constructor refusing_session
       (CallDelete (VInt 5)) []).1
    = Raise (TransportError 403 "Forbidden")
  ∧ (run_call sample_query_constructor bare_session
       (CallDelete (VInt 5)) []).1
    = Raise (KeyError "response").
Proof.
  assert (Request DELETE "alert/5" None None
    ∈ [Request DELETE "alert/5" None None]) as Hin by apply list_elem_of_here.
  split_and!; [reflexivity|done|..].
  - destruct (reply_decides_result sample_query_constructor refusing_session
      (CallDelete (VInt 5)) [] _ DELETE "alert/5" None None eq_refl Hin)
      as (_ & H & _).
    by apply H.
  - destruct (reply_decides_result sample_query_constructor bare_session
      (CallDelete (VInt 5)) [] _ DELETE "alert/5" None None eq_refl Hin)
      as (_ & _ & H & _).
    by apply (H {["error_code" := VInt 0]}).
Defined.

Lemma first_non_text_field_reported_witness :
  instance_of Tstr (VInt 3) = None
  ∧ list' sample_session (Some [VStr "id"; VInt 3; VNone]) []
    = (Raise (ValidationError "field" (VInt 3) None), []).
Proof.
  split; [reflexivity|].
  by destruct (first_non_text_field_reported sample_session ["id"] (VInt 3)
    [VNone] [] eq_refl) as [H _].
Defined.

Lemma fields_joined_beforehand_witness :
  ["id"; "name"] ≠ []
  ∧ list' sample_session (Some [VStr "id,name"]) []
    = list' sample_session (Some [VStr "id"; VStr "name"]) [].
Proof.
  assert (["id"; "name"] ≠ []) as Hne by discriminate.
  split; [done|].
  by destruct (fields_joined_beforehand sample_session ["id"; "name"] [] Hne)
    as [H _].
Defined.

Lemma create_update_send_payload_witness :
  kw_fields kw_never = Ok {["schedule" := plain_schedule "never"]}
  ∧ (create sample_query_constructor sample_session [] kw_never []).2
    = [] ++ [Request POST "alert" None
               (Some {["schedule" := plain_schedule "never"]})]
  ∧ kw_fields kw_bad_name = Raise (ValidationError "name" (VInt 7) None)
  ∧ update sample_query_constructor sample_session (VStr "x") [] kw_bad_name []
    = (Raise (ValidationError "name" (VInt 7) None), []).
Proof.
  assert (kw_fields kw_never = Ok {["schedule" := plain_schedule "never"]})
    as Hok by reflexivity.
  assert (kw_fields kw_bad_name = Raise (ValidationError "name" (VInt 7) None))
    as Hbad by reflexivity.
  split_and!; [done| |done|].
  - destruct (create_update_send_payload sample_query_constructor
      sample_session kw_never []) as [H _].
    destruct (H _ Hok) as [-> _]. reflexivity.
  - destruct (create_update_send_payload sample_query_constructor
      sample_session kw_bad_name []) as [_ H].
    destruct (H _ Hbad) as [_ H']. apply H'.
Defined.

Lemma no_option_is_required_witness :
  (∀ k, k ∈ tested_options → (∅ : dict) !! k = None)
  ∧ (create sample_query_constructor sample_session [] ∅ []).2
    = [] ++ [Request POST "alert" None (Some ∅)].
Proof.
  assert (∀ k, k ∈ tested_options → (∅ : dict) !! k = None) as Hno
    by (intros k _; apply lookup_empty).
  split; [done|].
  destruct (no_option_is_required sample_query_constructor sample_session
    ∅ [] Hno) as [_ ->]. reflexivity.
Defined.

Lemma normalizer_exceptions_witness :
  _alert_creator sample_query_constructor [] kw_empty_trigger []
  = (Raise IndexError, [])
  ∧ (normalizer_exception IndexError
     ∨ (([] : list value) ≠ []
        ∧ ∃ ckw, sample_query_constructor [] ckw = Raise IndexError)).
Proof.
  assert (_alert_creator sample_query_constructor [] kw_empty_trigger []
    = (Raise IndexError, [])) as Hrun by (vm_compute; reflexivity).
  split; [done|].
  apply (normalizer_exceptions sample_query_constructor [] kw_empty_trigger
    [] IndexError [] Hrun).
Defined.
